(** * plex-poster-download: GUID extraction, poster naming and save paths

    A shallow embedding of [src/plex_connection.py] and
    [src/plex_poster_download.py], and the properties of
    [PlexConnection.get_item_guid], [create_save_path] and the download
    loop of [main].

    Python [str] values are sequences of Unicode code points; they are
    modelled as lists of code points ([N]).  Python [int] is [Z]. *)

From Stdlib Require Import ZArith NArith Ascii String DecimalString DecimalZ.
From stdpp Require Import base decidable option list gmap.

Local Open Scope Z_scope.

(** ** Python strings *)

Abbreviation char := N (only parsing).
Abbreviation str := (list N) (only parsing).

(** An ASCII literal of the source as a Python string. *)
Definition py (s : string) : str :=
  List.map N_of_ascii (list_ascii_of_string s).

(** ** Exceptions and results *)

(** The messages of [sys.exit]. *)
Inductive exit_message : Type :=
  | MissingToken
  | MissingIP
  | InvalidIP
  | InvalidURLMessage
  | Unreachable (using_public_ip : bool)
  | UnreachableBoth
  | InvalidToken
  | LibraryNotFound (library : str).

Inductive exn : Type :=
  | KeyError (key : str)
  | IndexError
  | ValueError
  | FileExistsError
  | FileNotFoundError
  | NotADirectoryError
  | IsADirectoryError
  | URLError
  | InvalidURL
  | RequestException
  | Unauthorized
  | UnknownType
  | SystemExit (msg : exit_message).

Inductive res (A : Type) : Type :=
  | Ok (a : A)
  | Raise (e : exn)
  | OutOfFuel.
Arguments Ok {A} a.
Arguments Raise {A} e.
Arguments OutOfFuel {A}.

#[global] Instance res_ret : MRet res := fun A a => Ok a.
#[global] Instance res_bind : MBind res := fun A B k r =>
  match r with
  | Ok a => k a
  | Raise e => Raise e
  | OutOfFuel => OutOfFuel
  end.

(** ** String operations of the Python standard library *)

Module PyStr.

(** [s.startswith(p)]. *)
Fixpoint startswith (s p : str) {struct p} : bool :=
  match p, s with
  | [], _ => true
  | _ :: _, [] => false
  | a :: p', b :: s' => (a =? b)%N && startswith s' p'
  end.

(** [s.find(sub)]: the lowest index at which [sub] occurs, or [-1]. *)
Fixpoint find_from (i : Z) (s sub : str) : Z :=
  if startswith s sub then i
  else match s with
       | [] => -1
       | _ :: s' => find_from (i + 1) s' sub
       end.

Definition find (s sub : str) : Z := find_from 0 s sub.

(** [s.rfind(sub)] for a one-character [sub]: the highest index, or [-1]. *)
Fixpoint rfind_from (i : Z) (s : str) (c : char) : Z :=
  match s with
  | [] => -1
  | a :: s' =>
      let r := rfind_from (i + 1) s' c in
      if r =? -1 then (if (a =? c)%N then i else -1) else r
  end.

Definition rfind (s : str) (c : char) : Z := rfind_from 0 s c.

(** [s.split(sep)] scans left to right and cuts at every occurrence of
    [sep] that does not overlap the previous cut.  [split_aux sep skip s]
    returns the piece in progress and the pieces after it; [skip] counts
    the characters of a matched separator still to be dropped. *)
Fixpoint split_aux (sep : str) (skip : nat) (s : str) : str * list str :=
  match s with
  | [] => ([], [])
  | c :: s' =>
      match skip with
      | S k => split_aux sep k s'
      | O =>
          if startswith s sep
          then ([], let (p, ps) := split_aux sep (length sep - 1) s' in p :: ps)
          else let (p, ps) := split_aux sep O s' in (c :: p, ps)
      end
  end.

Definition pieces (sep s : str) : list str :=
  let (p, ps) := split_aux sep O s in p :: ps.

Definition split (sep s : str) : res (list str) :=
  match sep with
  | [] => Raise ValueError
  | _ :: _ => Ok (pieces sep s)
  end.

(** The characters [str.split()] treats as white space
    (CPython's [_PyUnicode_IsWhitespace]). *)
Definition isspace (c : char) : bool :=
  ((9 <=? c) && (c <=? 13) || (28 <=? c) && (c <=? 32)
   || (c =? 133) || (c =? 160) || (c =? 5760)
   || (8192 <=? c) && (c <=? 8202)
   || (c =? 8232) || (c =? 8233) || (c =? 8239) || (c =? 8287)
   || (c =? 12288))%N.

(** [s.split()] with no separator: the maximal runs of characters that
    are not white space. *)
Fixpoint split_ws (s : str) : list str :=
  match s with
  | [] => []
  | c :: s' =>
      if isspace c then split_ws s'
      else match s' with
           | [] => [[c]]
           | d :: _ =>
               if isspace d then [c] :: split_ws s'
               else match split_ws s' with
                    | w :: ws => (c :: w) :: ws
                    | [] => [[c]]
                    end
           end
  end.

(** [str(i)] for an [int], as in [f"{i}"]. *)
Definition str_of_int (i : Z) : str := py (NilEmpty.string_of_int (Z.to_int i)).

(** The word characters of [re] on [str] patterns: [\w] is an
    alphanumeric character or the underscore.  Below 128 these are the
    ASCII letters and digits; above, the Unicode database decides, which
    is the parameter [unicode_alnum]. *)
Definition is_word (unicode_alnum : char -> bool) (c : char) : bool :=
  (if c <? 128 then
     (48 <=? c) && (c <=? 57) || (65 <=? c) && (c <=? 90)
     || (97 <=? c) && (c <=? 122) || (c =? 95)
   else unicode_alnum c)%N.

(** [re.sub('\\W+', ' ', s)]: scanning from the left, every match of
    [\W+], a maximal run of characters that are not word characters, is
    replaced by one space.  [in_run] says that the run in progress has
    been replaced already. *)
Fixpoint sub_nonword (unicode_alnum : char -> bool) (in_run : bool) (s : str)
  : str :=
  match s with
  | [] => []
  | c :: s' =>
      if is_word unicode_alnum c then c :: sub_nonword unicode_alnum false s'
      else if in_run then sub_nonword unicode_alnum true s'
      else N_of_ascii " " :: sub_nonword unicode_alnum true s'
  end.

Definition re_sub_nonword (unicode_alnum : char -> bool) (s : str) : str :=
  sub_nonword unicode_alnum false s.

End PyStr.

(** [l[i]] on a Python list, negative indices counting from the end. *)
Definition getitem {A} (l : list A) (i : Z) : res A :=
  let n := Z.of_nat (length l) in
  let j := if i <? 0 then i + n else i in
  if (j <? 0) || (n <=? j) then Raise IndexError
  else match l !! Z.to_nat j with
       | Some a => Ok a
       | None => Raise IndexError
       end.

(** [d[k]] on a Python dict. *)
Definition dict_getitem {V} (d : gmap str V) (k : str) : res V :=
  match d !! k with
  | Some v => Ok v
  | None => Raise (KeyError k)
  end.

(** ** [pathlib]: pure POSIX paths

    A path is the list of its parts, as [PurePosixPath.parts]: the root
    ["/"] (or ["//"]) first when the path is absolute, then the
    components. *)

Module PathLib.

Import PyStr.

Abbreviation Path := (list str) (only parsing).

Definition slash : char := N_of_ascii "/".
Definition dot : char := N_of_ascii ".".

Fixpoint leading (c : char) (s : str) : nat :=
  match s with
  | a :: s' => if (a =? c)%N then S (leading c s') else O
  | [] => O
  end.

Definition is_root (x : str) : bool :=
  bool_decide (x = py "/") || bool_decide (x = py "//").

Definition has_root (p : Path) : bool :=
  match p with
  | x :: _ => is_root x
  | [] => false
  end.

(** [PurePosixPath(s).parts]: empty components and ["."] are dropped;
    exactly two leading slashes are kept as the root ["//"]. *)
Definition parse_parts (s : str) : Path :=
  let rel := filter (fun x => x <> [] /\ x <> py ".") (pieces [slash] s) in
  match leading slash s with
  | O => rel
  | 2%nat => py "//" :: rel
  | _ => py "/" :: rel
  end.

(** [p.joinpath(s)]: an absolute [s] replaces [p]. *)
Definition joinpath (p : Path) (s : str) : Path :=
  let q := parse_parts s in
  if has_root q then q else p ++ q.

Definition parent (p : Path) : Path := take (length p - 1) p.

(** [p.name]: the last part, unless the path is empty or only a root. *)
Definition name (p : Path) : str :=
  if (length p =? (if has_root p then 1 else 0))%nat then []
  else default [] (last p).

(** [p.suffix]: from the last dot of the name, when that dot is neither
    its first nor its last character. *)
Definition suffix (p : Path) : str :=
  let n := name p in
  let i := rfind n dot in
  if (0 <? i) && (i <? Z.of_nat (length n) - 1) then drop (Z.to_nat i) n
  else [].

(** [p.with_name(n)] raises [ValueError] when [p] has no name or [n] is
    not a file name. *)
Definition with_name (p : Path) (n : str) : res Path :=
  if bool_decide (name p = []) then Raise ValueError
  else if bool_decide (n = []) || bool_decide (slash ∈ n)
          || bool_decide (n = py ".")
  then Raise ValueError
  else Ok (parent p ++ [n]).

(** [p.with_stem(stem)] is [p.with_name(stem + p.suffix)]. *)
Definition with_stem (p : Path) (stem : str) : res Path :=
  with_name p (stem ++ suffix p).

Fixpoint join (sep : str) (l : list str) : str :=
  match l with
  | [] => []
  | [x] => x
  | x :: l' => x ++ sep ++ join sep l'
  end.

(** [str(p)]. *)
Definition str_of_path (p : Path) : str :=
  match p with
  | [] => py "."
  | x :: p' => if is_root x then x ++ join (py "/") p' else join (py "/") p
  end.

End PathLib.

(** ** The file system and the standard output

    The file system maps the paths that exist to what they are.  The
    current directory (the empty path) and the roots always exist.
    Symbolic links, permissions and other processes are not modelled:
    two paths with different parts are different entries. *)

Module OS.

Import PathLib.

Inductive node : Type :=
  | Dir
  | File (data : list N).

Record World : Type := mkWorld {
  fs : gmap Path node;
  stdout : list str
}.

Definition set_fs (f : gmap Path node) (w : World) : World :=
  {| fs := f; stdout := stdout w |}.

Definition lookup_node (f : gmap Path node) (p : Path) : option node :=
  if bool_decide (p = []) || ((length p =? 1)%nat && has_root p)
  then Some Dir
  else f !! p.

(** Computations that read and change the world and may raise. *)
Definition M (A : Type) : Type := World -> res A * World.

#[global] Instance M_ret : MRet M := fun A a w => (Ok a, w).
#[global] Instance M_bind : MBind M := fun A B k m w =>
  match m w with
  | (Ok a, w') => k a w'
  | (Raise e, w') => (Raise e, w')
  | (OutOfFuel, w') => (OutOfFuel, w')
  end.

Definition lift {A} (r : res A) : M A := fun w => (r, w).

(** [print(s)]. *)
Definition print (s : str) : M unit := fun w =>
  (Ok tt, {| fs := fs w; stdout := stdout w ++ [s] |}).

(** [Path.exists()]. *)
Definition path_exists (p : Path) : M bool := fun w =>
  (Ok (bool_decide (is_Some (lookup_node (fs w) p))), w).

Definition isdir (f : gmap Path node) (p : Path) : bool :=
  match lookup_node f p with
  | Some Dir => true
  | _ => false
  end.

(** [os.mkdir(p)]. *)
Definition mkdir (p : Path) : M unit := fun w =>
  match lookup_node (fs w) p with
  | Some _ => (Raise FileExistsError, w)
  | None =>
      match lookup_node (fs w) (parent p) with
      | Some Dir => (Ok tt, set_fs (<[p := Dir]> (fs w)) w)
      | Some (File _) => (Raise NotADirectoryError, w)
      | None => (Raise FileNotFoundError, w)
      end
  end.

(** The end of [os.makedirs(p, exist_ok=True)]:
    [try: mkdir(p) except OSError: if not path.isdir(p): raise]. *)
Definition mkdir_exist_ok (p : Path) : M unit := fun w =>
  match mkdir p w with
  | (Raise e, w') => if isdir (fs w') p then (Ok tt, w') else (Raise e, w')
  | r => r
  end.

(** [os.makedirs(p, exist_ok=True)], on the reversed path: the missing
    parent is made first, a [FileExistsError] from it is ignored. *)
Fixpoint makedirs_rev (rp : list str) : M unit := fun w =>
  match rp with
  | [] => mkdir_exist_ok [] w
  | _ :: rhead =>
      let head := reverse rhead in
      if negb (bool_decide (head = []))
         && negb (bool_decide (is_Some (lookup_node (fs w) head)))
      then match makedirs_rev rhead w with
           | (Ok _, w') | (Raise FileExistsError, w') =>
               mkdir_exist_ok (reverse rp) w'
           | r => r
           end
      else mkdir_exist_ok (reverse rp) w
  end.

Definition makedirs (p : Path) : M unit := makedirs_rev (reverse p).

(** [urllib.request.urlretrieve(url, p)]: the URL is opened first, then
    the file is opened for writing and receives the data. *)
Definition urlretrieve (http : str -> option (list N)) (url : str) (p : Path)
  : M unit := fun w =>
  match http url with
  | None => (Raise URLError, w)
  | Some data =>
      match lookup_node (fs w) p with
      | Some Dir => (Raise IsADirectoryError, w)
      | _ =>
          match lookup_node (fs w) (parent p) with
          | Some Dir => (Ok tt, set_fs (<[p := File data]> (fs w)) w)
          | Some (File _) => (Raise NotADirectoryError, w)
          | None => (Raise FileNotFoundError, w)
          end
      end
  end.

End OS.

(** ** The objects of [plexapi] that the scripts read *)

Module PlexAPI.

Record Image : Type := { url : str }.

Record Album : Type := {
  album_title : str;
  album_thumb : option str;
  album_images : list Image
}.

(** A movie, a show or an artist; [year] and [thumb] may be [None], and
    only an artist has albums. *)
Record Item : Type := {
  title : str;
  year : option Z;
  thumb : option str;
  images : list Image;
  albums : list Album
}.

Record LibrarySection : Type := {
  type : str;
  all : list Item
}.

(** A server: [PlexServer(...).library.section(name)]. *)
Definition Server : Type := gmap str LibrarySection.

End PlexAPI.

(** ** [plex_connection.py] *)

Module PlexConnection.

Import PyStr PlexAPI.

Record PlexConnection : Type := {
  using_public_ip : bool;
  plex_token : str;
  plex_ip : str;
  plex_pub_ip : option str;
  libraries : list str;
  plex : Server
}.

(** The truth value of an optional string: [None] and [""] are false. *)
Definition truthy (o : option str) : bool :=
  match o with
  | Some (_ :: _) => true
  | _ => false
  end.

Definition check_ip (o : option str) : res unit :=
  match o with
  | Some ip =>
      if truthy o && negb (bool_decide (take 7 ip = py "http://"))
         && negb (bool_decide (take 8 ip = py "https://"))
      then Raise (SystemExit InvalidIP)
      else Ok tt
  | None => Ok tt
  end.

Section Connection.

(** [os.environ], the library names of [config.yml], and the servers
    that answer: [PlexServer(address, token)]. *)
Context (environ : gmap str str).
Context (config_libraries : list str).
Context (PlexServer : str -> str -> res Server).

(** [load_config], for [edit_collections=False] (the only use in
    [plex_poster_download.py]): the fields read from the environment,
    and the library names, which are the keys of [config.yml]. *)
Definition load_config : res (bool * str * str * option str * list str) :=
  token ← match environ !! py "PLEX_TOKEN" with
          | Some t => Ok t
          | None => Raise (SystemExit MissingToken)
          end;
  '(ip, public) ← match environ !! py "PLEX_SERVER_IP" with
                  | Some ip => Ok (ip, false)
                  | None =>
                      match environ !! py "PLEX_SERVER_PUBLIC_IP" with
                      | Some ip => Ok (ip, true)
                      | None => Raise (SystemExit MissingIP)
                      end
                  end;
  let pub_ip : option str :=
    if public : bool then None else environ !! py "PLEX_SERVER_PUBLIC_IP" in
  _ ← check_ip (Some ip);
  _ ← check_ip pub_ip;
  Ok (public, token, ip, pub_ip, config_libraries).

(** [plex_setup]: one fallback from [plex_ip] to [plex_pub_ip]. *)
Definition plex_setup (public : bool) (token ip : str) (pub_ip : option str)
  : res Server :=
  match PlexServer ip token with
  | Raise InvalidURL => Raise (SystemExit InvalidURLMessage)
  | Raise RequestException =>
      if truthy pub_ip then
        match PlexServer (default [] pub_ip) token with
        | Raise RequestException | Raise InvalidURL =>
            Raise (SystemExit UnreachableBoth)
        | Raise Unauthorized => Raise (SystemExit InvalidToken)
        | r => r
        end
      else Raise (SystemExit (Unreachable public))
  | Raise Unauthorized => Raise (SystemExit InvalidToken)
  | r => r
  end.

(** [PlexConnection(edit_collections=False)]. *)
Definition connect : res PlexConnection :=
  c ← load_config;
  let '(public, token, ip, pub_ip, libs) := c in
  server ← plex_setup public token ip pub_ip;
  Ok {| using_public_ip := public; plex_token := token; plex_ip := ip;
        plex_pub_ip := pub_ip; libraries := libs; plex := server |}.

(** [get_libraries]: a dict, as the list of its items in insertion
    order; a library listed twice keeps its first position.  A library
    that the server does not have ([NotFound]) ends the process. *)
Fixpoint get_libraries_from (server : Server) (libs : list str)
  (acc : list (str * LibrarySection)) : res (list (str * LibrarySection)) :=
  match libs with
  | [] => Ok acc
  | library :: rest =>
      match server !! library with
      | None => Raise (SystemExit (LibraryNotFound library))
      | Some section =>
          get_libraries_from server rest
            (if bool_decide (library ∈ acc.*1)
             then (fun kv => if bool_decide (kv.1 = library)
                             then (library, section) else kv) <$> acc
             else acc ++ [(library, section)])
      end
  end.

Definition get_libraries (self : PlexConnection)
  : res (list (str * LibrarySection)) :=
  get_libraries_from (plex self) (libraries self) [].

End Connection.

Definition lib_sources : gmap str (list str) :=
  <[py "movie" := [py "tmdb"; py "imdb"; py "plex"]]>
  (<[py "show" := [py "tvdb"; py "tmdb"; py "plex"]]> ∅).

(** The body of the [for source in ...] loop from the point where the
    source was found in the title. *)
Definition extract (title source : str) (full : bool) : res str :=
  guid ← (if decide (source = py "plex") then
            parts ← split (py "plex://") title;
            tail ← getitem parts (-1);
            getitem (split_ws tail) 0
          else
            parts ← split (py "{" ++ source ++ py "-") title;
            tail ← getitem parts (-1);
            pieces ← split (py "}") tail;
            getitem pieces 0);
  if full then Ok (source ++ py "://" ++ guid) else Ok guid.

Fixpoint for_sources (title : str) (full : bool) (sources : list str)
  : res str :=
  match sources with
  | [] => Ok (py "-1")
  | source :: rest =>
      if find title source =? -1 then for_sources title full rest
      else extract title source full
  end.

(** [try: ... except KeyError as exc: raise UnknownType from exc]. *)
Definition get_item_guid (title lib_type : str) (full : bool) : res str :=
  match (sources ← dict_getitem lib_sources lib_type;
         for_sources title full sources) with
  | Raise (KeyError _) => Raise UnknownType
  | r => r
  end.

End PlexConnection.

(** ** [plex_poster_download.py] *)

Module PlexPosterDownload.

Import PyStr PathLib OS PlexAPI.

Section Run.

(** The process: its environment, its working directory, the library
    names of [config.yml], the servers and the images that the network
    gives, and the Unicode table of [re]. *)
Context (environ : gmap str str).
Context (cwd : Path).
Context (config_libraries : list str).
Context (PlexServer : str -> str -> res Server).
Context (http : str -> option (list N)).
Context (unicode_alnum : char -> bool).

(** [os.environ[k]]. *)
Definition environ_getitem (k : str) : M str := lift (dict_getitem environ k).

(** The [while] loop of [create_save_path]:
    [while image_path.with_stem(f"{name}_{i}").exists(): i += 1]. *)
Fixpoint probe (fuel : nat) (image_path : Path) (name : str) (i : Z) : M Z :=
  match fuel with
  | O => lift OutOfFuel
  | S fuel' =>
      p ← lift (with_stem image_path (name ++ py "_" ++ str_of_int i));
      b ← path_exists p;
      if b : bool then probe fuel' image_path name (i + 1) else mret i
  end.

Definition save_dir (save_path : option str) (library : str * LibrarySection)
  : Path :=
  match save_path with
  | Some sp => joinpath (parse_parts sp) library.1
  | None => joinpath cwd (py "Posters/" ++ library.1)
  end.

Definition create_save_path (fuel : nat) (save_path : option str)
  (library : str * LibrarySection) (name : str) : M Path :=
  let save_dir_path := save_dir save_path library in
  _ ← makedirs save_dir_path;
  let image_path := joinpath save_dir_path (name ++ py ".png") in
  b ← path_exists image_path;
  if b : bool then
    i ← probe fuel image_path name 1;
    lift (with_stem image_path (name ++ py "_" ++ str_of_int i))
  else mret image_path.

Definition download_images (fuel : nat) (save_path : option str)
  (library : str * LibrarySection) (name thumb_url : str) : M Path :=
  image_path ← create_save_path fuel save_path library name;
  _ ← urlretrieve http thumb_url image_path;
  mret (parent image_path).

(** [f"{child.year}"]. *)
Definition str_of_year (y : option Z) : str :=
  match y with
  | Some n => str_of_int n
  | None => py "None"
  end.

(** The name under which the poster of a video item is saved. *)
Definition video_name (child : Item) : str :=
  let name := re_sub_nonword unicode_alnum (title child) in
  name ++ py " (" ++ str_of_year (year child) ++ py ")".

Definition album_name (album : Album) : str :=
  re_sub_nonword unicode_alnum (album_title album).

(** The poster URL, read from the environment, the three fields of the
    f-string in their order. *)
Definition thumb_url_of (imgs : list Image) : M str :=
  ip ← environ_getitem (py "PLEX_SERVER_PUBLIC_IP");
  image ← lift (getitem imgs 0);
  token ← environ_getitem (py "PLEX_TOKEN");
  mret (ip ++ url image ++ py "?X-Plex-Token=" ++ token).

(** One turn of [for album in child.albums()]; [save_dir_path] is the
    variable of [main] of that name, [None] for its first value [""]. *)
Definition album_step (fuel : nat) (save_path : option str)
  (library : str * LibrarySection) (album : Album)
  (save_dir_path : option Path) : M (option Path) :=
  let name := album_name album in
  match album_thumb album with
  | None => mret save_dir_path
  | Some _ =>
      thumb_url ← thumb_url_of (album_images album);
      d ← download_images fuel save_path library name thumb_url;
      mret (Some d)
  end.

Fixpoint for_albums (fuel : nat) (save_path : option str)
  (library : str * LibrarySection) (l : list Album)
  (save_dir_path : option Path) : M (option Path) :=
  match l with
  | [] => mret save_dir_path
  | album :: rest =>
      d ← album_step fuel save_path library album save_dir_path;
      for_albums fuel save_path library rest d
  end.

(** One turn of [for child in tqdm(library[1].all(), ...)]. *)
Definition child_step (fuel : nat) (save_path : option str)
  (library : str * LibrarySection) (lib_type : str) (child : Item)
  (save_dir_path : option Path) : M (option Path) :=
  if bool_decide (lib_type = py "audio") then
    for_albums fuel save_path library (albums child) save_dir_path
  else
    let name := video_name child in
    match thumb child with
    | None => mret save_dir_path
    | Some _ =>
        thumb_url ← thumb_url_of (images child);
        d ← download_images fuel save_path library name thumb_url;
        mret (Some d)
    end.

Fixpoint for_children (fuel : nat) (save_path : option str)
  (library : str * LibrarySection) (lib_type : str) (l : list Item)
  (save_dir_path : option Path) : M (option Path) :=
  match l with
  | [] => mret save_dir_path
  | child :: rest =>
      d ← child_step fuel save_path library lib_type child save_dir_path;
      for_children fuel save_path library lib_type rest d
  end.

(** One turn of [for library in plex_libraries.items()]. *)
Definition library_step (fuel : nat) (save_path : option str)
  (library : str * LibrarySection) (save_dir_path : option Path)
  : M (option Path) :=
  if bool_decide (type library.2 = py "photo") then
    _ ← print (py "This function does not handle photo libraries.");
    mret save_dir_path
  else if bool_decide (type library.2 ∈ [py "movie"; py "show"]) then
    for_children fuel save_path library (py "video") (all library.2)
      save_dir_path
  else if bool_decide (type library.2 = py "artist") then
    for_children fuel save_path library (py "audio") (all library.2)
      save_dir_path
  else
    _ ← print (py "Unknown library type.");
    mret save_dir_path.

Fixpoint for_libraries (fuel : nat) (save_path : option str)
  (l : list (str * LibrarySection)) (save_dir_path : option Path)
  : M (option Path) :=
  match l with
  | [] => mret save_dir_path
  | library :: rest =>
      d ← library_step fuel save_path library save_dir_path;
      for_libraries fuel save_path rest d
  end.

Definition main (fuel : nat) (save_path : option str) : M unit :=
  _ ← print (py "Loading Plex config...");
  plex ← lift (PlexConnection.connect environ config_libraries PlexServer);
  plex_libraries ← lift (PlexConnection.get_libraries plex);
  save_dir_path ← for_libraries fuel save_path plex_libraries None;
  print (py "Saved to " ++ from_option str_of_path [] save_dir_path).

End Run.

End PlexPosterDownload.

(** * The vocabulary of the properties *)

Section Vocabulary.
Import PyStr PathLib OS PlexAPI PlexPosterDownload.

(** ** Strings *)

(** [sub] occurs in [s] as a contiguous substring. *)
Definition occurs (sub s : str) : Prop := exists a b, s = a ++ sub ++ b.

(** A numeral is made of digits and a sign. *)
Definition numeral_char (c : char) : Prop :=
  (48 <= c <= 57)%N \/ c = N_of_ascii "-".

(** File names: not empty, no separator, not ["."]. *)
Definition filename (x : str) : Prop :=
  x <> [] /\ (slash ∉ x) /\ x <> py ".".

(** ** File systems *)

(** The regular files of a file system, with their contents. *)
Definition files (f : gmap Path node) : gmap Path (list N) :=
  omap (fun n => match n with File d => Some d | Dir => None end) f.

(** [f'] is [f] with directories added at absent prefixes of [p]. *)
Definition only_adds_dirs (p : Path) (f f' : gmap Path node) : Prop :=
  forall q, f' !! q = f !! q
            \/ (q `prefix_of` p /\ lookup_node f q = None /\ f' !! q = Some Dir).

(** The paths that [create_save_path] tries in the directory [dir]. *)
Definition base_path (dir : Path) (name : str) : Path :=
  dir ++ [name ++ py ".png"].

Definition candidate (dir : Path) (name : str) (i : Z) : Path :=
  dir ++ [name ++ py "_" ++ str_of_int i ++ py ".png"].

(** ** Name sanitization *)

(** The spec's words: the maximal runs of a title, each with its class
    ([true] for word characters), and the title with every run of
    characters that are not word characters replaced by one space. *)
Fixpoint runs (unicode_alnum : N -> bool) (s : str) : list (bool * str) :=
  match s with
  | [] => []
  | c :: s' =>
      match runs unicode_alnum s' with
      | (b, r) :: rs =>
          if Bool.eqb (is_word unicode_alnum c) b then (b, c :: r) :: rs
          else (is_word unicode_alnum c, [c]) :: (b, r) :: rs
      | [] => [(is_word unicode_alnum c, [c])]
      end
  end.

Definition render (run : bool * str) : str :=
  if run.1 then run.2 else py " ".

Definition replace_runs (unicode_alnum : N -> bool) (s : str) : str :=
  concat (render <$> runs unicode_alnum s).

Fixpoint alternating (l : list (bool * str)) : Prop :=
  match l with
  | a :: (b :: _) as l' => a.1 <> b.1 /\ alternating l'
  | _ => True
  end.

(** ** The download loop *)




Definition PUBLIC_IP : str := py "PLEX_SERVER_PUBLIC_IP".

(** ** A small installation, for examples *)

Definition demo_cwd : Path := [py "/"; py "home"; py "plex"].

Definition demo_library : str * LibrarySection :=
  (py "Movies", {| type := py "movie"; all := [] |}).

Definition demo_http (url : str) : option (list N) := Some (py "PNG").

(** [out/Movies/Foo.png] exists. *)
Definition demo_world_1 : World :=
  {| fs := <[ [py "out"; py "Movies"; py "Foo.png"] := File (py "old") ]>
           (<[ [py "out"; py "Movies"] := Dir ]>
            (<[ [py "out"] := Dir ]> ∅));
     stdout := [] |}.


Definition demo_movie (y : option Z) : Item :=
  {| title := py "Spider-Man: Far From Home"; year := y;
     thumb := Some (py "/library/metadata/7/thumb/1");
     images := [ {| url := py "/library/metadata/7/thumb/1" |} ];
     albums := [] |}.

Definition demo_section (y : option Z) : LibrarySection :=
  {| type := py "movie"; all := [demo_movie y] |}.

Definition demo_server : Server := {[ py "Movies" := demo_section (Some 2019) ]}.

Definition demo_PlexServer (address token : str) : res Server := Ok demo_server.

(** Only PLEX_SERVER_IP and PLEX_TOKEN are set. *)
Definition demo_environ_local : gmap str str :=
  <[py "PLEX_SERVER_IP" := py "http://192.168.1.2:32400"]>
  (<[py "PLEX_TOKEN" := py "secret"]> ∅).

Definition demo_environ_public : gmap str str :=
  <[py "PLEX_SERVER_PUBLIC_IP" := py "https://plex.example.org"]>
  demo_environ_local.

Definition demo_world_0 : World := {| fs := ∅; stdout := [] |}.

(** ** Further vocabulary *)

(** The source that [get_item_guid] reads: the first of the priority
    list whose name occurs in the title. *)
Definition selected_source (title : str) (sources : list str) : option str :=
  snd <$> list_find (fun s => find title s <> -1) sources.

(** An address that [load_config] accepts: empty, or with a scheme. *)
Definition valid_ip (ip : str) : Prop :=
  ip = [] \/ take 7 ip = py "http://" \/ take 8 ip = py "https://".

(** A list without the later occurrences of its elements. *)
Fixpoint dedup_first (l : list str) : list str :=
  match l with
  | [] => []
  | x :: l' => x :: filter (fun y => y <> x) (dedup_first l')
  end.

(** A network where only the public address answers. *)
Definition demo_PlexServer_public (address token : str) : res Server :=
  if bool_decide (address = py "https://plex.example.org")
  then Ok demo_server else Raise RequestException.

(** A connection to the demo server, for a given configuration. *)
Definition demo_connection (libs : list str) : PlexConnection.PlexConnection :=
  {| PlexConnection.using_public_ip := false;
     PlexConnection.plex_token := py "secret";
     PlexConnection.plex_ip := py "http://192.168.1.2:32400";
     PlexConnection.plex_pub_ip := Some (py "https://plex.example.org");
     PlexConnection.libraries := libs;
     PlexConnection.plex := demo_server |}.

Definition demo_album : Album :=
  {| album_title := py "Abbey Road (Remastered)";
     album_thumb := Some (py "/library/metadata/9/thumb/2");
     album_images := [ {| url := py "/library/metadata/9/thumb/2" |} ] |}.

(** An item with a thumb and no image. *)
Definition demo_movie_no_image : Item :=
  {| title := py "Heat"; year := Some 1995;
     thumb := Some (py "/library/metadata/8/thumb/1");
     images := []; albums := [] |}.

(** A network that answers every URL with the URL. *)
Definition demo_http_echo (url : str) : option (list N) := Some url.


End Vocabulary.

(** * Properties *)

(** ** Strings *)

Section PyStrFacts.
Import PyStr.

Lemma startswith_spec s p : startswith s p = true <-> exists r, s = p ++ r.
Proof.
  revert s; induction p as [|a p IH]; intros s; simpl.
  - split; [eauto|done].
  - destruct s as [|b s].
    + split; [done|]. intros [r Hr]. discriminate.
    + rewrite andb_true_iff, N.eqb_eq, IH. split.
      * intros [-> [r ->]]. by exists r.
      * intros [r Hr]. injection Hr as -> ->. eauto.
Qed.

Lemma find_from_range i s sub :
  find_from i s sub = -1 \/ i <= find_from i s sub.
Proof.
  revert i; induction s as [|c s IH]; intros i; simpl.
  - destruct (startswith [] sub); lia.
  - destruct (startswith (c :: s) sub); [lia|].
    destruct (IH (i + 1)); lia.
Qed.

Lemma find_from_occurs i s sub :
  0 <= i -> find_from i s sub <> -1 <-> occurs sub s.
Proof.
  revert i; induction s as [|c s IH]; intros i Hi; simpl.
  - destruct (startswith [] sub) eqn:E.
    + apply startswith_spec in E as [r Hr]. split; [|lia].
      intros _. exists [], r. done.
    + split; [done|]. intros (a & b & Hab).
      destruct a; [|discriminate]. simpl in Hab.
      assert (startswith [] sub = true) by (apply startswith_spec; eauto).
      congruence.
  - destruct (startswith (c :: s) sub) eqn:E.
    + apply startswith_spec in E as [r Hr]. split; [|lia].
      intros _. exists [], r. done.
    + rewrite (IH (i + 1)) by lia. split.
      * intros (a & b & ->). by exists (c :: a), b.
      * intros (a & b & Hab). destruct a as [|a0 a].
        -- simpl in Hab.
           assert (startswith (c :: s) sub = true)
             by (apply startswith_spec; eauto).
           congruence.
        -- injection Hab as -> ->. by exists a, b.
Qed.

Lemma find_occurs s sub : find s sub <> -1 <-> occurs sub s.
Proof. by apply find_from_occurs. Qed.

Lemma find_not_occurs s sub : find s sub = -1 <-> ~ occurs sub s.
Proof.
  rewrite <- find_occurs. destruct (decide (find s sub = -1)); naive_solver.
Qed.

(** After a match, the rest of the separator is dropped. *)
Lemma split_aux_skip sep u b :
  split_aux sep (length u) (u ++ b) = split_aux sep O b.
Proof. induction u as [|c u IH]; simpl; [by destruct b|done]. Qed.

Lemma split_pieces sep s : sep <> [] -> split sep s = Ok (pieces sep s).
Proof. by destruct sep. Qed.

Lemma pieces_match sep b :
  sep <> [] -> pieces sep (sep ++ b) = [] :: pieces sep b.
Proof.
  intros Hsep. destruct sep as [|h t]; [done|].
  unfold pieces. cbn [app split_aux].
  assert (startswith (h :: t ++ b) (h :: t) = true) as ->
    by (apply startswith_spec; eauto).
  replace (length (h :: t) - 1)%nat with (length t) by (simpl; lia).
  by rewrite split_aux_skip.
Qed.

Lemma pieces_no_match sep c s :
  startswith (c :: s) sep = false ->
  pieces sep (c :: s) =
    match pieces sep s with
    | p :: ps => (c :: p) :: ps
    | [] => []
    end.
Proof.
  intros E. unfold pieces. cbn [split_aux]. rewrite E.
  by destruct (split_aux sep 0 s).
Qed.

Lemma pieces_not_occurs sep s : sep <> [] -> ~ occurs sep s -> pieces sep s = [s].
Proof.
  intros Hsep. induction s as [|c s IH]; intros Hno.
  - by destruct sep.
  - rewrite pieces_no_match.
    + rewrite IH; [done|]. intros (a & b & ->). apply Hno.
      by exists (c :: a), b.
    + destruct (startswith (c :: s) sep) eqn:E; [|done].
      apply startswith_spec in E as [r Hr]. destruct Hno. by exists [], r.
Qed.

(** A separator whose first character does not occur again in it cannot
    overlap a later occurrence of itself. *)
Lemma startswith_no_overlap h t u rest :
  h ∉ t -> u <> [] ->
  startswith (u ++ (h :: t) ++ rest) (h :: t) = true ->
  (length t < length u)%nat.
Proof.
  intros Hh Hu [r Hr]%startswith_spec.
  destruct (decide (length t < length u)%nat) as [|Hge]; [done|].
  exfalso. apply Hh.
  assert ((u ++ (h :: t) ++ rest) !! length u = Some h) as Hl.
  { rewrite lookup_app_r by lia. by rewrite Nat.sub_diag. }
  rewrite Hr in Hl. destruct u as [|c u]; [done|]. simpl in Hl.
  rewrite lookup_app_l in Hl by (simpl in Hge; lia).
  by eapply list_elem_of_lookup_2.
Qed.

Lemma split_aux_last h t pre rest k :
  h ∉ t -> (k <= length pre)%nat ->
  exists p ps,
    split_aux (h :: t) k (pre ++ (h :: t) ++ rest) = (p, ps) /\
    ps <> [] /\ last ps = last (pieces (h :: t) rest).
Proof.
  intros Hh. revert k. induction pre as [|c pre IH]; intros k Hk.
  - assert (k = O) as -> by (simpl in Hk; lia).
    cbn [app split_aux].
    assert (startswith (h :: t ++ rest) (h :: t) = true) as ->
      by (apply startswith_spec; eauto).
    replace (length (h :: t) - 1)%nat with (length t) by (simpl; lia).
    rewrite split_aux_skip. unfold pieces.
    destruct (split_aux (h :: t) 0 rest) as [p ps]. eauto.
  - destruct k as [|k].
    + change ((c :: pre) ++ (h :: t) ++ rest)
        with (c :: (pre ++ (h :: t) ++ rest)).
      cbn [split_aux].
      destruct (startswith (c :: pre ++ (h :: t) ++ rest) (h :: t)) eqn:E.
      * apply (startswith_no_overlap h t (c :: pre) rest) in E; [|done..].
        replace (length (h :: t) - 1)%nat with (length t) by (simpl; lia).
        destruct (IH (length t)) as (p & ps & -> & Hps & Hl);
          [simpl in E; lia|].
        eexists _, _. split; [done|]. split; [done|].
        destruct ps; [done|]. done.
      * destruct (IH O) as (p & ps & -> & Hps & Hl); [lia|]. eauto.
    + simpl. apply IH. simpl in Hk. lia.
Qed.

(** The last piece is what follows the last occurrence. *)
Lemma pieces_last h t pre rest :
  h ∉ t -> ~ occurs (h :: t) rest ->
  last (pieces (h :: t) (pre ++ (h :: t) ++ rest)) = Some rest.
Proof.
  intros Hh Hno.
  destruct (split_aux_last h t pre rest O Hh) as (p & ps & E & Hps & Hl);
    [lia|].
  unfold pieces at 1. rewrite E.
  rewrite pieces_not_occurs in Hl by done.
  destruct ps; [done|]. exact Hl.
Qed.

(** The first piece is what precedes the first occurrence of a
    one-character separator. *)
Lemma pieces_head_char c a b :
  c ∉ a -> head (pieces [c] (a ++ c :: b)) = Some a.
Proof.
  induction a as [|x a IH]; intros Hc.
  - change ([] ++ c :: b) with ([c] ++ b). by rewrite pieces_match.
  - apply not_elem_of_cons in Hc as [Hx Hc].
    change ((x :: a) ++ c :: b) with (x :: (a ++ c :: b)).
    rewrite pieces_no_match.
    + specialize (IH Hc). destruct (pieces [c] (a ++ c :: b)); [done|].
      simpl in *. by injection IH as ->.
    + simpl. destruct (c =? x)%N eqn:E; [|done].
      apply N.eqb_eq in E. congruence.
Qed.

Lemma getitem_last {A} (l : list A) x : last l = Some x -> getitem l (-1) = Ok x.
Proof.
  intros Hl. unfold getitem.
  assert (0 < length l)%nat by (destruct l; simpl; [done|lia]).
  rewrite last_lookup in Hl.
  change (-1 <? 0) with true. cbn match.
  replace (Z.to_nat (-1 + Z.of_nat (length l))) with (pred (length l)) by lia.
  rewrite Hl.
  destruct (Z.ltb_spec (-1 + Z.of_nat (length l)) 0); [lia|].
  destruct (Z.leb_spec (Z.of_nat (length l)) (-1 + Z.of_nat (length l)));
    [lia|done].
Qed.

Lemma getitem_head {A} (l : list A) x : head l = Some x -> getitem l 0 = Ok x.
Proof.
  destruct l as [|y l]; [done|]. intros [= ->]. unfold getitem.
  change (0 <? 0) with false. cbn [orb].
  destruct (Z.leb_spec (Z.of_nat (length (x :: l))) 0); [simpl in *; lia|done].
Qed.

Lemma getitem_nil {A} i : getitem (@nil A) i = Raise IndexError.
Proof. unfold getitem. simpl. by destruct (_ || _). Qed.

End PyStrFacts.

(** ** [get_item_guid] *)

Section GuidFacts.
Import PyStr PlexConnection.

Lemma lib_sources_movie :
  lib_sources !! py "movie" = Some [py "tmdb"; py "imdb"; py "plex"].
Proof. reflexivity. Qed.

Lemma lib_sources_show :
  lib_sources !! py "show" = Some [py "tvdb"; py "tmdb"; py "plex"].
Proof. reflexivity. Qed.

Lemma lib_sources_other (k : str) :
  k <> py "movie" -> k <> py "show" -> lib_sources !! k = None.
Proof.
  intros Hm Hs. unfold lib_sources.
  rewrite lookup_insert_ne by done. rewrite lookup_insert_ne by done.
  apply lookup_empty.
Qed.

(** The loop stops at the first source whose name occurs in the title. *)
Lemma for_sources_first title full skipped source rest :
  Forall (fun s => ~ occurs s title) skipped ->
  occurs source title ->
  for_sources title full (skipped ++ source :: rest)
  = extract title source full.
Proof.
  intros Hsk Hocc. induction Hsk as [|s skipped Hs _ IH]; simpl.
  - apply find_occurs in Hocc.
    destruct (Z.eqb_spec (find title source) (-1)); [done|done].
  - apply find_not_occurs in Hs. by rewrite Hs.
Qed.

Lemma for_sources_none title full sources :
  Forall (fun s => ~ occurs s title) sources ->
  for_sources title full sources = Ok (py "-1").
Proof.
  induction 1 as [|s sources Hs _ IH]; simpl; [done|].
  apply find_not_occurs in Hs. by rewrite Hs.
Qed.

(** An occurrence of a separator cannot start in a prefix that does not
    contain its first character. *)
Lemma occurs_app_skip h t (u v : str) :
  h ∉ u -> occurs (h :: t) (u ++ v) -> occurs (h :: t) v.
Proof.
  intros Hh (a & b & Hab).
  apply app_eq_inv in Hab as [(k & -> & Hv)|(k & -> & Hv)].
  - destruct k as [|x k].
    + simpl in Hv. exists [], b. by rewrite <- Hv.
    + injection Hv as <- _. destruct Hh.
      apply elem_of_app. right. left.
  - by exists k, b.
Qed.

(** A token [{source-id}] after which [{source-] does not occur again. *)
Lemma extract_braced title source pre id post full :
  source <> py "plex" ->
  title = pre ++ (py "{" ++ source ++ py "-") ++ id ++ py "}" ++ post ->
  N_of_ascii "{" ∉ source ++ py "-" ->
  N_of_ascii "}" ∉ id ->
  ~ occurs (py "{" ++ source ++ py "-") (id ++ py "}" ++ post) ->
  extract title source full
  = Ok (if full then source ++ py "://" ++ id else id).
Proof.
  intros Hplex -> Hopen Hclose Hlast. unfold extract.
  destruct (decide (source = py "plex")) as [|_]; [done|].
  rewrite split_pieces by done.
  change (py "{" ++ source ++ py "-")
    with (N_of_ascii "{" :: (source ++ py "-")) in *.
  cbn [mbind res_bind].
  rewrite (getitem_last _ (id ++ py "}" ++ post))
    by (by apply pieces_last).
  cbn [mbind res_bind].
  rewrite split_pieces by done. cbn [mbind res_bind].
  rewrite (getitem_head _ id)
    by (by apply (pieces_head_char (N_of_ascii "}"))).
  by destruct full.
Qed.

Lemma split_ws_cons c (s : str) :
  split_ws (c :: s) =
    if isspace c then split_ws s
    else match s with
         | [] => [[c]]
         | d :: _ =>
             if isspace d then [c] :: split_ws s
             else match split_ws s with
                  | w :: ws => (c :: w) :: ws
                  | [] => [[c]]
                  end
         end.
Proof. done. Qed.

Lemma split_ws_word (w post : str) :
  w <> [] ->
  Forall (fun c => isspace c = false) w ->
  (post = [] \/ exists d post', post = d :: post' /\ isspace d = true) ->
  head (split_ws (w ++ post)) = Some w.
Proof.
  intros Hw Hns Hpost. induction Hns as [|c w Hc Hns IH]; [done|].
  change ((c :: w) ++ post) with (c :: (w ++ post)).
  rewrite split_ws_cons, Hc.
  destruct w as [|c' w].
  - destruct Hpost as [->|(d & post' & -> & Hd)]; [done|].
    simpl. by rewrite Hd.
  - apply Forall_cons in Hns as Hns'. destruct Hns' as [Hc' _].
    specialize (IH ltac:(done)).
    change ((c' :: w) ++ post) with (c' :: (w ++ post)) in *.
    cbv iota. rewrite Hc'.
    destruct (split_ws (c' :: (w ++ post))) as [|w0 ws];
      simpl in IH; [done|].
    by injection IH as ->.
Qed.

(** A token [plex://w], ended by white space or the end of the title,
    after which [plex://] does not occur again. *)
Lemma extract_plex title pre w post full :
  title = pre ++ py "plex://" ++ w ++ post ->
  w <> [] ->
  Forall (fun c => isspace c = false) w ->
  (post = [] \/ exists d post', post = d :: post' /\ isspace d = true) ->
  ~ occurs (py "plex://") (w ++ post) ->
  extract title (py "plex") full
  = Ok (if full then py "plex://" ++ w else w).
Proof.
  intros -> Hw Hns Hpost Hlast. unfold extract.
  destruct (decide (py "plex" = py "plex")) as [_|]; [|done].
  rewrite split_pieces by done. cbn [mbind res_bind].
  rewrite (getitem_last _ (w ++ post)).
  2:{ apply (pieces_last (N_of_ascii "p") (py "lex://")); [|done].
      compute_done. }
  cbn [mbind res_bind].
  rewrite (getitem_head _ w) by (by apply split_ws_word).
  by destruct full.
Qed.

Lemma occurs_middle (a sub b : str) : occurs sub (a ++ sub ++ b).
Proof. by exists a, b. Qed.

(** What the code returns when the selected source has a well-formed
    token: the sources before it in the priority list must not occur in
    the title at all, not even outside a token. *)
Lemma get_item_guid_braced title kind skipped source rest pre id post full :
  lib_sources !! kind = Some (skipped ++ source :: rest) ->
  Forall (fun s => ~ occurs s title) skipped ->
  source ∈ [py "tmdb"; py "imdb"; py "tvdb"] ->
  title = pre ++ (py "{" ++ source ++ py "-") ++ id ++ py "}" ++ post ->
  N_of_ascii "}" ∉ id ->
  ~ occurs (py "{" ++ source ++ py "-") (id ++ py "}" ++ post) ->
  get_item_guid title kind full
  = Ok (if full then source ++ py "://" ++ id else id).
Proof.
  intros Hk Hsk Hsrc Ht Hclose Hlast.
  unfold get_item_guid, dict_getitem. rewrite Hk. cbn [mbind res_bind].
  rewrite for_sources_first; [|done|].
  - rewrite (extract_braced title source pre id post full); [done| |done| |done..].
    + set_unfold in Hsrc; destruct Hsrc as [->|[->|[->|[]]]]; compute_done.
    + set_unfold in Hsrc; destruct Hsrc as [->|[->|[->|[]]]]; compute_done.
  - rewrite Ht.
    replace (pre ++ (py "{" ++ source ++ py "-") ++ id ++ py "}" ++ post)
      with ((pre ++ py "{") ++ source ++ (py "-" ++ id ++ py "}" ++ post)).
    + apply occurs_middle.
    + by rewrite <- !app_assoc.
Qed.

Lemma get_item_guid_plex title kind skipped rest pre w post full :
  lib_sources !! kind = Some (skipped ++ py "plex" :: rest) ->
  Forall (fun s => ~ occurs s title) skipped ->
  title = pre ++ py "plex://" ++ w ++ post ->
  w <> [] ->
  Forall (fun c => isspace c = false) w ->
  (post = [] \/ exists d post', post = d :: post' /\ isspace d = true) ->
  ~ occurs (py "plex://") (w ++ post) ->
  get_item_guid title kind full
  = Ok (if full then py "plex://" ++ w else w).
Proof.
  intros Hk Hsk Ht Hw Hns Hpost Hlast.
  unfold get_item_guid, dict_getitem. rewrite Hk. cbn [mbind res_bind].
  rewrite for_sources_first; [|done|].
  - by rewrite (extract_plex title pre w post full).
  - rewrite Ht. exists pre, (py "://" ++ w ++ post). done.
Qed.

(** With no source name anywhere in the title the sentinel is returned. *)
Lemma get_item_guid_no_source_name title kind sources full :
  lib_sources !! kind = Some sources ->
  Forall (fun s => ~ occurs s title) sources ->
  get_item_guid title kind full = Ok (py "-1").
Proof.
  intros Hk Hno. unfold get_item_guid, dict_getitem. rewrite Hk.
  cbn [mbind res_bind]. by rewrite for_sources_none.
Qed.

(** A movie title with an imdb token and a (last) tmdb token, in either
    order: the tmdb identifier is returned. *)
Lemma get_item_guid_movie_tmdb_over_imdb title pre id post pre' id' post' :
  title = pre ++ py "{tmdb-" ++ id ++ py "}" ++ post ->
  title = pre' ++ py "{imdb-" ++ id' ++ py "}" ++ post' ->
  N_of_ascii "}" ∉ id ->
  ~ occurs (py "{tmdb-") (id ++ py "}" ++ post) ->
  get_item_guid title (py "movie") false = Ok id.
Proof.
  intros Ht _ Hclose Hlast.
  apply (get_item_guid_braced title (py "movie") [] (py "tmdb")
           [py "imdb"; py "plex"] pre id post false);
    [done|done|set_solver|done..].
Qed.

(** A movie title without the letters "tmdb" and "imdb" whose (last)
    plex token is [plex://movie/456]. *)
Lemma get_item_guid_plex_movie_456 (pre post : str) full :
  ~ occurs (py "tmdb") (pre ++ py "plex://movie/456" ++ post) ->
  ~ occurs (py "imdb") (pre ++ py "plex://movie/456" ++ post) ->
  (post = [] \/ exists d post', post = d :: post' /\ isspace d = true) ->
  ~ occurs (py "plex://") post ->
  get_item_guid (pre ++ py "plex://movie/456" ++ post) (py "movie") full
  = Ok (if full then py "plex://movie/456" else py "movie/456").
Proof.
  intros Ht Hi Hpost Hlast.
  apply (get_item_guid_plex _ (py "movie") [py "tmdb"; py "imdb"] []
           pre (py "movie/456") post full).
  - done.
  - by repeat constructor.
  - change (py "plex://movie/456") with (py "plex://" ++ py "movie/456").
    by rewrite <- app_assoc.
  - done.
  - by apply (bool_decide_unpack _).
  - done.
  - intros Ho. apply Hlast.
    apply (occurs_app_skip _ _ (py "movie/456") post); [compute_done|exact Ho].
Qed.

End GuidFacts.

Section GuidClaims.
Import PyStr PlexConnection.

(** C1 (code defect).  The claim: the identifier of the highest-priority
    source whose token is present is returned.  The loop tests for the
    bare source name, [title.find(source)], and not for the token
    [{source-]: a movie title whose only token is an imdb token, but which
    contains the letters "tmdb" elsewhere, is parsed as a tmdb title and
    the imdb identifier is not returned. *)
Theorem get_item_guid_priority_bare_name :
  get_item_guid (py "tmdb/Heat {imdb-tt0113277}") (py "movie") false
  = Ok (py "tmdb/Heat {imdb-tt0113277").
Proof. reflexivity. Qed.

(** C2 (code defect).  The claim: a title with no recognized token gives
    the sentinel "-1", also when it contains a source name as a plain
    substring.  The code returns the first white-space separated word of a
    title that contains "plex", and the text up to the first closing
    brace of a title that contains "tmdb". *)
Theorem get_item_guid_bare_name_not_sentinel :
  get_item_guid (py "Duplex (2003)") (py "movie") false = Ok (py "Duplex")
  /\ get_item_guid (py "tmdb") (py "movie") false = Ok (py "tmdb")
  /\ get_item_guid (py "tmdb") (py "show") true = Ok (py "tmdb://tmdb").
Proof. repeat split; reflexivity. Qed.

(** C5.  A kind other than "movie" and "show" raises [UnknownType],
    whatever the title: no value is returned. *)
Theorem get_item_guid_unknown_kind title lib_type full :
  lib_type <> py "movie" -> lib_type <> py "show" ->
  get_item_guid title lib_type full = Raise UnknownType.
Proof.
  intros Hm Hs. unfold get_item_guid, dict_getitem.
  by rewrite lib_sources_other.
Qed.

Lemma get_item_guid_unknown_kind_album :
  py "album" <> py "movie" /\ py "album" <> py "show" /\
  get_item_guid (py "Heat {tmdb-949}") (py "album") false = Raise UnknownType.
Proof.
  split; [discriminate|]. split; [discriminate|].
  apply (get_item_guid_unknown_kind (py "Heat {tmdb-949}") (py "album") false);
    discriminate.
Defined.

(** C6, as the claim states it, fails: with two tmdb tokens the last one
    is returned, [split(...)[-1]]. *)
Lemma get_item_guid_tmdb_123_last_token_wins :
  occurs (py "{tmdb-123}") (py "{tmdb-123} {tmdb-456}")
  /\ get_item_guid (py "{tmdb-123} {tmdb-456}") (py "movie") false
     = Ok (py "456")
  /\ get_item_guid (py "{tmdb-123} {tmdb-456}") (py "movie") true
     = Ok (py "tmdb://456").
Proof.
  split; [|split; reflexivity].
  by exists [], (py " {tmdb-456}").
Qed.

(** C6, amended.  For every title that contains the token [{tmdb-123}]
    with no [{tmdb-] after it, kind "movie" gives "123", and
    "tmdb://123" when [full] is set. *)
Theorem get_item_guid_tmdb_123 (pre post : str) :
  ~ occurs (py "{tmdb-") post ->
  get_item_guid (pre ++ py "{tmdb-123}" ++ post) (py "movie") false
  = Ok (py "123")
  /\ get_item_guid (pre ++ py "{tmdb-123}" ++ post) (py "movie") true
     = Ok (py "tmdb://123").
Proof.
  intros Hlast.
  assert (~ occurs (py "{" ++ py "tmdb" ++ py "-") (py "123" ++ py "}" ++ post))
    as Hlast'.
  { intros Ho. apply Hlast.
    apply (occurs_app_skip _ _ (py "123}") post); [compute_done|exact Ho]. }
  split.
  - apply (get_item_guid_braced _ (py "movie") [] (py "tmdb")
             [py "imdb"; py "plex"] pre (py "123") post false);
      [done|done|set_solver|done|compute_done|done].
  - apply (get_item_guid_braced _ (py "movie") [] (py "tmdb")
             [py "imdb"; py "plex"] pre (py "123") post true);
      [done|done|set_solver|done|compute_done|done].
Qed.

Lemma get_item_guid_tmdb_123_witness :
  ~ occurs (py "{tmdb-") (py " {imdb-tt0113277}") /\
  get_item_guid (py "Heat (1995) " ++ py "{tmdb-123}" ++ py " {imdb-tt0113277}")
    (py "movie") false = Ok (py "123")
  /\ get_item_guid (py "Heat (1995) " ++ py "{tmdb-123}" ++ py " {imdb-tt0113277}")
       (py "movie") true = Ok (py "tmdb://123").
Proof.
  assert (~ occurs (py "{tmdb-") (py " {imdb-tt0113277}")) as H
    by (apply find_not_occurs; reflexivity).
  split; [exact H|].
  exact (get_item_guid_tmdb_123 (py "Heat (1995) ") (py " {imdb-tt0113277}") H).
Defined.

(** C7 (code defect).  The claim: a title whose only recognized token is
    [plex://movie/456] gives "movie/456".  A title that also contains the
    letters "imdb" (or "tmdb"), outside any token, is parsed as an imdb
    title; this is the defect of C1 and C2. *)
Theorem get_item_guid_plex_only_bare_name :
  get_item_guid (py "imdb/Heat plex://movie/456") (py "movie") false
  = Ok (py "imdb/Heat plex://movie/456")
  /\ get_item_guid (py "imdb/Heat plex://movie/456") (py "movie") true
     = Ok (py "imdb://imdb/Heat plex://movie/456").
Proof. split; reflexivity. Qed.

End GuidClaims.

(** ** Decimal numerals and file names *)

Section PathFacts.
Import PyStr PathLib.

Lemma py_inj (s t : string) : py s = py t -> s = t.
Proof.
  unfold py. intros H.
  rewrite <- (string_of_list_ascii_of_string s),
          <- (string_of_list_ascii_of_string t).
  f_equal. revert H.
  generalize (list_ascii_of_string s) (list_ascii_of_string t).
  induction l as [|a l IH]; intros [|b l']; simpl; try done.
  intros [= Hab Hl]. f_equal; [|by apply IH].
  rewrite <- (ascii_N_embedding a), <- (ascii_N_embedding b). by rewrite Hab.
Qed.

Lemma str_of_int_inj i j : str_of_int i = str_of_int j -> i = j.
Proof.
  intros H%py_inj. apply DecimalZ.to_int_inj.
  assert (Some (Z.to_int i) = Some (Z.to_int j)) as [= ->]; [|done].
  by rewrite <- !NilEmpty.isi, H.
Qed.

Lemma str_of_int_chars i : Forall numeral_char (str_of_int i).
Proof.
  unfold str_of_int.
  assert (forall d, Forall numeral_char (py (NilEmpty.string_of_uint d))) as Hu.
  { induction d; simpl; [by constructor|..];
      (constructor; [left; vm_compute; split; discriminate|exact IHd]). }
  destruct (Z.to_int i) as [d|d]; simpl; [apply Hu|].
  constructor; [by right|apply Hu].
Qed.

Lemma str_of_int_no_slash i : slash ∉ str_of_int i.
Proof.
  intros Hin. pose proof (str_of_int_chars i) as Hall.
  rewrite Forall_forall in Hall. destruct (Hall _ Hin) as [[H1 H2]|H].
  - vm_compute in H2. by apply H2.
  - discriminate.
Qed.

Lemma occurs_singleton (c : char) (s : str) : occurs [c] s <-> c ∈ s.
Proof.
  split.
  - intros (a & b & ->). apply elem_of_app. right. left.
  - intros (a & b & ->)%list_elem_of_split. by exists a, b.
Qed.

Lemma leading_not_head (c : char) (s : str) : c ∉ s -> leading c s = O.
Proof.
  destruct s as [|a s]; [done|]. intros Hc. simpl.
  destruct (N.eqb_spec a c) as [->|]; [|done]. destruct Hc. left.
Qed.

Lemma filename_not_root x : filename x -> is_root x = false.
Proof.
  intros (_ & Hs & _). unfold is_root.
  destruct (decide (x = py "/")) as [->|]; [destruct Hs; compute_done|].
  destruct (decide (x = py "//")) as [->|]; [destruct Hs; compute_done|].
  rewrite !bool_decide_eq_false_2; done.
Qed.

Lemma parse_parts_filename x : filename x -> parse_parts x = [x].
Proof.
  intros (Hne & Hs & Hdot). unfold parse_parts.
  rewrite leading_not_head by done.
  rewrite pieces_not_occurs; [|done|by rewrite occurs_singleton].
  rewrite filter_cons_True by done. done.
Qed.

Lemma joinpath_filename (dir : Path) x : filename x -> joinpath dir x = dir ++ [x].
Proof.
  intros Hx. unfold joinpath. rewrite parse_parts_filename by done.
  simpl. by rewrite filename_not_root.
Qed.

Lemma parent_snoc (dir : Path) x : parent (dir ++ [x]) = dir.
Proof.
  unfold parent. rewrite length_app. simpl.
  replace (length dir + 1 - 1)%nat with (length dir) by lia.
  by rewrite take_app_length.
Qed.

Lemma name_snoc (dir : Path) x : is_root x = false -> name (dir ++ [x]) = x.
Proof.
  intros Hx. unfold name. rewrite last_snoc.
  assert ((length (dir ++ [x]) =? (if has_root (dir ++ [x]) then 1 else 0))%nat
          = false) as ->; [|done].
  apply Nat.eqb_neq. rewrite length_app.
  destruct dir as [|y dir]; simpl.
  - rewrite Hx. lia.
  - destruct (is_root y); lia.
Qed.

Lemma rfind_from_last i (a b : str) c :
  0 <= i -> c ∉ b -> rfind_from i (a ++ c :: b) c = i + Z.of_nat (length a).
Proof.
  intros Hi Hb. revert Hi.
  assert (forall j, rfind_from j b c = -1) as Hnone.
  { clear -Hb. induction b as [|x b IH]; intros j; [done|].
    apply not_elem_of_cons in Hb as [Hx Hb]. simpl. rewrite (IH Hb).
    simpl. destruct (N.eqb_spec x c); [congruence|done]. }
  revert i. induction a as [|x a IH]; intros i Hi; simpl.
  - rewrite Hnone. change (-1 =? -1) with true. cbv iota.
    rewrite N.eqb_refl. simpl. lia.
  - rewrite IH by lia.
    destruct (Z.eqb_spec (i + 1 + Z.of_nat (length a)) (-1)); lia.
Qed.

Lemma suffix_png (dir : Path) (n : str) :
  n <> [] -> slash ∉ n -> suffix (dir ++ [n ++ py ".png"]) = py ".png".
Proof.
  intros Hne Hs. unfold suffix.
  rewrite name_snoc.
  2:{ apply filename_not_root. split; [by destruct n|]. split.
      - rewrite not_elem_of_app. split; [done|compute_done].
      - intros H. apply (f_equal length) in H. rewrite length_app in H.
        simpl in H. lia. }
  unfold rfind. change (n ++ py ".png") with (n ++ dot :: py "png").
  rewrite rfind_from_last by (done || compute_done).
  rewrite length_app. simpl.
  assert (0 < length n)%nat by (destruct n; simpl; [done|lia]).
  destruct (Z.ltb_spec 0 (0 + Z.of_nat (length n))); [|lia].
  destruct (Z.ltb_spec (0 + Z.of_nat (length n))
              (Z.of_nat (length n + 4) - 1)); [|lia].
  simpl. replace (Z.to_nat (0 + Z.of_nat (length n))) with (length n) by lia.
  by rewrite drop_app_length.
Qed.

End PathFacts.

(** ** The file system *)

Section FsFacts.
Import PyStr PathLib OS.

Lemma lookup_node_None (f : gmap Path node) (q : Path) :
  lookup_node f q = None -> f !! q = None.
Proof. unfold lookup_node. by destruct (_ || _). Qed.

Lemma lookup_node_snoc (f : gmap Path node) (dir : Path) x :
  is_root x = false -> lookup_node f (dir ++ [x]) = f !! (dir ++ [x]).
Proof.
  intros Hx. unfold lookup_node.
  rewrite bool_decide_eq_false_2 by (by destruct dir).
  destruct dir as [|y dir]; simpl.
  - by rewrite Hx.
  - rewrite length_app. simpl.
    destruct (Nat.eqb_spec (length dir + 1) 0); [lia|done].
Qed.

Lemma lookup_node_ext (f f' : gmap Path node) (q : Path) :
  f' !! q = f !! q -> lookup_node f' q = lookup_node f q.
Proof. unfold lookup_node. intros ->. done. Qed.

Lemma only_adds_dirs_refl p f : only_adds_dirs p f f.
Proof. intros q. by left. Qed.

Lemma only_adds_dirs_trans p1 p2 f f1 f2 :
  p1 `prefix_of` p2 ->
  only_adds_dirs p1 f f1 -> only_adds_dirs p2 f1 f2 -> only_adds_dirs p2 f f2.
Proof.
  intros Hp H1 H2 q.
  destruct (H2 q) as [E2|(Hq & Hn & Hd)], (H1 q) as [E1|(Hq' & Hn' & Hd')].
  - left. by rewrite E2.
  - right. split; [by etrans|]. split; [done|]. by rewrite E2.
  - right. split; [done|]. split; [|done].
    by rewrite <- (lookup_node_ext f f1 q).
  - apply lookup_node_None in Hn. by rewrite Hd' in Hn.
Qed.

Lemma only_adds_dirs_node p f f' q :
  only_adds_dirs p f f' ->
  lookup_node f' q = lookup_node f q
  \/ (q `prefix_of` p /\ lookup_node f q = None /\ lookup_node f' q = Some Dir).
Proof.
  intros H. destruct (H q) as [E|(Hq & Hn & Hd)].
  - left. by apply lookup_node_ext.
  - right. split; [done|]. split; [done|].
    unfold lookup_node in *. by destruct (_ || _).
Qed.

Lemma only_adds_dirs_files p f f' : only_adds_dirs p f f' -> files f' = files f.
Proof.
  intros H. apply map_eq. intros q. unfold files. rewrite !lookup_omap.
  destruct (H q) as [->|(_ & Hn%lookup_node_None & ->)]; [done|].
  by rewrite Hn.
Qed.

(** A path that is not a prefix of [p] is left alone. *)
Lemma only_adds_dirs_other p f f' q :
  only_adds_dirs p f f' -> ~ q `prefix_of` p -> f' !! q = f !! q.
Proof. intros H Hq. by destruct (H q) as [|(? & _)]. Qed.

Lemma mkdir_exist_ok_spec p w :
  stdout (mkdir_exist_ok p w).2 = stdout w
  /\ only_adds_dirs p (fs w) (fs (mkdir_exist_ok p w).2)
  /\ ((mkdir_exist_ok p w).1 = Ok tt ->
      lookup_node (fs (mkdir_exist_ok p w).2) p = Some Dir)
  /\ ((forall d, lookup_node (fs w) p <> Some (File d)) ->
      lookup_node (fs w) (parent p) = Some Dir ->
      (mkdir_exist_ok p w).1 = Ok tt).
Proof.
  unfold mkdir_exist_ok, mkdir, isdir.
  destruct (lookup_node (fs w) p) as [n|] eqn:Hp; simpl.
  - rewrite Hp. destruct n as [|data]; simpl.
    + split_and!; [done|apply only_adds_dirs_refl|done|done].
    + split_and!; [done|apply only_adds_dirs_refl|done|].
      intros H. by destruct (H data).
  - destruct (lookup_node (fs w) (parent p)) as [[|d]|] eqn:Hpar; simpl;
      rewrite ?Hp; simpl.
    + split_and!; [done| | |done].
      * intros q. destruct (decide (q = p)) as [->|Hne].
        -- right. by rewrite lookup_insert_eq.
        -- left. by rewrite lookup_insert_ne.
      * intros _. unfold lookup_node in *.
        destruct (_ || _); [done|]. by rewrite lookup_insert_eq.
    + split_and!; [done|apply only_adds_dirs_refl|done|done].
    + split_and!; [done|apply only_adds_dirs_refl|done|done].
Qed.

Lemma makedirs_rev_spec rp w :
  stdout (makedirs_rev rp w).2 = stdout w
  /\ only_adds_dirs (reverse rp) (fs w) (fs (makedirs_rev rp w).2)
  /\ ((makedirs_rev rp w).1 = Ok tt ->
      lookup_node (fs (makedirs_rev rp w).2) (reverse rp) = Some Dir)
  /\ ((forall q d, q `prefix_of` reverse rp ->
                   lookup_node (fs w) q <> Some (File d)) ->
      (makedirs_rev rp w).1 = Ok tt).
Proof.
  revert w. induction rp as [|x rhead IH]; intros w.
  - cbn [makedirs_rev].
    destruct (mkdir_exist_ok_spec [] w) as (H1 & H2 & H3 & H4).
    split_and!; [done..|]. intros _. by apply H4.
  - cbn [makedirs_rev]. rewrite (reverse_cons rhead x).
    assert (parent (reverse rhead ++ [x]) = reverse rhead) as Hpar
      by apply parent_snoc.
    assert (reverse rhead `prefix_of` reverse rhead ++ [x]) as Hpre
      by (by exists [x]).
    destruct (negb (bool_decide (reverse rhead = []))
              && negb (bool_decide
                         (is_Some (lookup_node (fs w) (reverse rhead)))))
      eqn:Hcond.
    + destruct (IH w) as (H1 & H2 & H3 & H4).
      assert (forall w1,
        stdout w1 = stdout w ->
        only_adds_dirs (reverse rhead) (fs w) (fs w1) ->
        ((forall q d, q `prefix_of` reverse rhead ++ [x] ->
                      lookup_node (fs w) q <> Some (File d)) ->
         lookup_node (fs w1) (reverse rhead) = Some Dir) ->
        let out := mkdir_exist_ok (reverse rhead ++ [x]) w1 in
        stdout out.2 = stdout w
        /\ only_adds_dirs (reverse rhead ++ [x]) (fs w) (fs out.2)
        /\ (out.1 = Ok tt ->
            lookup_node (fs out.2) (reverse rhead ++ [x]) = Some Dir)
        /\ ((forall q d, q `prefix_of` reverse rhead ++ [x] ->
                         lookup_node (fs w) q <> Some (File d)) ->
            out.1 = Ok tt)) as Hstep.
      { intros w1 Hs1 Ha1 Hd1 out.
        destruct (mkdir_exist_ok_spec (reverse rhead ++ [x]) w1)
          as (G1 & G2 & G3 & G4).
        split; [subst out; congruence|].
        split; [by eapply only_adds_dirs_trans|].
        split; [done|]. intros Hfree. apply G4.
        - intros d Hd.
          destruct (only_adds_dirs_node _ _ _ (reverse rhead ++ [x]) Ha1)
            as [E|(_ & _ & E)]; [|congruence].
          rewrite E in Hd. by eapply (Hfree _ d); [|exact Hd].
        - rewrite Hpar. by apply Hd1. }
      destruct (makedirs_rev rhead w) as [[[]|e|] w1] eqn:Hrec; simpl in *.
      * apply Hstep; [done..|]. intros _. by apply H3.
      * assert ((forall q d, q `prefix_of` reverse rhead ++ [x] ->
                             lookup_node (fs w) q <> Some (File d)) -> False)
          as Habs.
        { intros Hf. discriminate H4. intros q d Hq. apply Hf.
          by apply prefix_app_r. }
        assert (only_adds_dirs (reverse rhead ++ [x]) (fs w) (fs w1)) as Hadd.
        { eapply only_adds_dirs_trans;
            [exact Hpre|exact H2|apply only_adds_dirs_refl]. }
        destruct e; try (split_and!; [done..|intros Hf; by destruct Habs]).
        apply Hstep; [done..|]. intros Hf. by destruct Habs.
      * split_and!; [done| |done|].
        -- eapply only_adds_dirs_trans;
             [exact Hpre|exact H2|apply only_adds_dirs_refl].
        -- intros Hf. discriminate H4. intros q d Hq. apply Hf.
           by apply prefix_app_r.
    + destruct (mkdir_exist_ok_spec (reverse rhead ++ [x]) w)
        as (G1 & G2 & G3 & G4).
      split_and!; [done..|]. intros Hfree. apply G4.
      * intros d. by apply Hfree.
      * rewrite Hpar. apply andb_false_iff in Hcond as [Hc|Hc].
        -- apply negb_false_iff, bool_decide_eq_true in Hc. by rewrite Hc.
        -- apply negb_false_iff, bool_decide_eq_true in Hc as [n Hn].
           destruct n as [|d]; [done|]. by destruct (Hfree _ d Hpre).
Qed.

End FsFacts.

(** ** [create_save_path] *)

Section SavePathFacts.
Import PyStr PathLib OS PlexAPI PlexPosterDownload.

Lemma makedirs_spec p w :
  stdout (makedirs p w).2 = stdout w
  /\ only_adds_dirs p (fs w) (fs (makedirs p w).2)
  /\ ((makedirs p w).1 = Ok tt -> lookup_node (fs (makedirs p w).2) p = Some Dir)
  /\ ((forall q d, q `prefix_of` p -> lookup_node (fs w) q <> Some (File d)) ->
      (makedirs p w).1 = Ok tt).
Proof.
  unfold makedirs. pose proof (makedirs_rev_spec (reverse p) w) as H.
  by rewrite reverse_involutive in H.
Qed.

Lemma png_filename (name : str) : slash ∉ name -> filename (name ++ py ".png").
Proof.
  intros Hs. split; [by destruct name|]. split.
  - rewrite not_elem_of_app. split; [done|compute_done].
  - intros H. apply (f_equal length) in H. rewrite length_app in H.
    simpl in H. lia.
Qed.

Lemma candidate_filename (name : str) i :
  slash ∉ name -> filename (name ++ py "_" ++ str_of_int i ++ py ".png").
Proof.
  intros Hs. split; [by destruct name|]. split.
  - rewrite !not_elem_of_app.
    split_and!; [done|compute_done|apply str_of_int_no_slash|compute_done].
  - intros H. apply (f_equal length) in H. rewrite !length_app in H.
    simpl in H. lia.
Qed.

Lemma with_stem_candidate (dir : Path) (name : str) i :
  name <> [] -> slash ∉ name ->
  with_stem (base_path dir name) (name ++ py "_" ++ str_of_int i)
  = Ok (candidate dir name i).
Proof.
  intros Hne Hs. unfold with_stem, base_path, candidate.
  rewrite suffix_png by done. unfold with_name.
  rewrite name_snoc by (by apply filename_not_root, png_filename).
  rewrite bool_decide_eq_false_2 by (by destruct name).
  rewrite <- !app_assoc.
  destruct (candidate_filename name i Hs) as (H1 & H2 & H3).
  rewrite !bool_decide_eq_false_2 by done. simpl.
  by rewrite parent_snoc.
Qed.

Lemma candidate_inj (dir : Path) (name : str) i j :
  candidate dir name i = candidate dir name j -> i = j.
Proof.
  unfold candidate. intros H%app_inv_head. injection H as H.
  apply app_inv_head in H. injection H as H. apply app_inv_tail in H.
  by apply str_of_int_inj.
Qed.

Lemma candidate_not_prefix (dir : Path) (name : str) i :
  ~ candidate dir name i `prefix_of` dir.
Proof. apply prefix_snoc_not. Qed.

Lemma base_path_not_prefix (dir : Path) (name : str) :
  ~ base_path dir name `prefix_of` dir.
Proof. apply prefix_snoc_not. Qed.

Lemma lookup_node_candidate (f : gmap Path node) (dir : Path) (name : str) i :
  slash ∉ name -> lookup_node f (candidate dir name i) = f !! candidate dir name i.
Proof.
  intros Hs. apply lookup_node_snoc.
  by apply filename_not_root, candidate_filename.
Qed.

Lemma lookup_node_base_path (f : gmap Path node) (dir : Path) (name : str) :
  slash ∉ name -> lookup_node f (base_path dir name) = f !! base_path dir name.
Proof.
  intros Hs. apply lookup_node_snoc. by apply filename_not_root, png_filename.
Qed.

(** Only as many candidates exist as the file system has entries. *)
Lemma candidates_bounded (f : gmap Path node) (dir : Path) (name : str) n :
  (forall k, (k < n)%nat ->
             is_Some (f !! candidate dir name (1 + Z.of_nat k))) ->
  (n <= size f)%nat.
Proof.
  intros Hall.
  set (l := (fun k => candidate dir name (1 + Z.of_nat k)) <$> seq 0 n).
  assert (NoDup l) as Hnd.
  { apply NoDup_fmap_2; [|apply NoDup_seq].
    intros a b Hab%candidate_inj. lia. }
  assert (list_to_set l ⊆ (dom f : gset Path)) as Hsub.
  { intros q Hq. rewrite elem_of_list_to_set in Hq.
    apply list_elem_of_fmap in Hq as (k & -> & Hk).
    apply elem_of_seq in Hk. apply elem_of_dom. apply Hall. lia. }
  apply subseteq_size in Hsub.
  rewrite size_list_to_set in Hsub by done.
  rewrite size_dom in Hsub. unfold l in Hsub.
  by rewrite length_fmap, length_seq in Hsub.
Qed.

Lemma candidate_free_exists (f : gmap Path node) (dir : Path) (name : str) n :
  (size f < n)%nat ->
  exists k, (k < n)%nat /\ f !! candidate dir name (1 + Z.of_nat k) = None.
Proof.
  intros Hn.
  destruct (decide (Exists
    (fun k => f !! candidate dir name (1 + Z.of_nat k) = None) (seq 0 n)))
    as [Hex|Hno].
  - apply Exists_exists in Hex as (k & Hk & Hfree).
    apply elem_of_seq in Hk. exists k. split; [lia|done].
  - apply not_Exists_Forall in Hno; [|apply _].
    rewrite Forall_forall in Hno.
    assert (n <= size f)%nat; [|lia].
    apply (candidates_bounded f dir name). intros k Hk.
    specialize (Hno k). simpl in Hno.
    destruct (f !! candidate dir name (1 + Z.of_nat k)); [done|].
    destruct Hno; [|done]. apply elem_of_seq. lia.
Qed.

(** The loop returns the first free candidate, given fuel to reach it. *)
Lemma probe_finds (dir : Path) (name : str) fuel i w :
  name <> [] -> slash ∉ name ->
  (exists k, (k < fuel)%nat
             /\ fs w !! candidate dir name (i + Z.of_nat k) = None) ->
  exists j, i <= j
    /\ probe fuel (base_path dir name) name i w = (Ok j, w)
    /\ fs w !! candidate dir name j = None
    /\ forall j', i <= j' < j -> is_Some (fs w !! candidate dir name j').
Proof.
  intros Hne Hs. revert i. induction fuel as [|fuel IH]; intros i (k & Hk & Hfree).
  - lia.
  - cbn [probe]. unfold mbind, M_bind, lift at 1.
    rewrite with_stem_candidate by done. unfold path_exists.
    rewrite lookup_node_candidate by done.
    destruct (fs w !! candidate dir name i) as [n|] eqn:Hi.
    + rewrite bool_decide_eq_true_2 by eauto.
      destruct k as [|k].
      { replace (i + Z.of_nat 0) with i in Hfree by lia. congruence. }
      destruct (IH (i + 1)) as (j & Hj & Hp & Hjfree & Hbelow).
      { exists k. split; [lia|].
        by replace (i + 1 + Z.of_nat k) with (i + Z.of_nat (S k)) by lia. }
      exists j. split_and!; [lia|done|done|].
      intros j' Hj'. destruct (decide (j' = i)) as [->|]; [eauto|].
      apply Hbelow. lia.
    + rewrite bool_decide_eq_false_2 by (by intros [? ?]).
      exists i. split_and!; [lia|done|done|]. intros j' Hj'. lia.
Qed.

(** The loop does not change the world, and the index it returns names
    a path that does not exist. *)
Lemma probe_frame fuel (image_path : Path) (name : str) i w :
  (probe fuel image_path name i w).2 = w
  /\ forall j, (probe fuel image_path name i w).1 = Ok j ->
       exists p, with_stem image_path (name ++ py "_" ++ str_of_int j) = Ok p
                 /\ lookup_node (fs w) p = None.
Proof.
  revert i. induction fuel as [|fuel IH]; intros i; [by split|].
  cbn [probe]. unfold mbind, M_bind, lift.
  destruct (with_stem image_path (name ++ py "_" ++ str_of_int i))
    as [p|e|] eqn:Hp; [|by split..].
  unfold path_exists.
  destruct (lookup_node (fs w) p) as [n|] eqn:Hn.
  - rewrite bool_decide_eq_true_2 by eauto. apply IH.
  - rewrite bool_decide_eq_false_2 by (by intros [? ?]).
    split; [done|]. intros j [= <-]. eauto.
Qed.

Lemma files_insert_file (f : gmap Path node) (p : Path) d :
  files (<[p := File d]> f) = <[p := d]> (files f).
Proof. unfold files. by rewrite (omap_insert_Some _ _ _ _ d). Qed.

Lemma files_lookup_None (f : gmap Path node) (p : Path) :
  f !! p = None -> files f !! p = None.
Proof. intros H. unfold files. by rewrite lookup_omap, H. Qed.

End SavePathFacts.

Section SavePathClaims.
Import PyStr PathLib OS PlexAPI PlexPosterDownload.

Context (cwd : Path) (http : str -> option (list N)).

(** The run of [create_save_path] on a file name and a directory that
    no regular file stands in the way of: the path it returns, and the
    world it leaves. *)
Lemma create_save_path_run fuel save_path library (name : str) w :
  name <> [] -> slash ∉ name ->
  (forall q d, q `prefix_of` save_dir cwd save_path library ->
               lookup_node (fs w) q <> Some (File d)) ->
  (size (fs w) < fuel)%nat ->
  exists path w',
    create_save_path cwd fuel save_path library name w = (Ok path, w')
    /\ fs w !! path = None
    /\ lookup_node (fs w') path = None
    /\ parent path = save_dir cwd save_path library
    /\ lookup_node (fs w') (save_dir cwd save_path library) = Some Dir
    /\ files (fs w') = files (fs w)
    /\ match fs w !! base_path (save_dir cwd save_path library) name with
       | None => path = base_path (save_dir cwd save_path library) name
       | Some _ =>
           exists i, 1 <= i
             /\ path = candidate (save_dir cwd save_path library) name i
             /\ forall j, 1 <= j < i ->
                  is_Some (fs w !! candidate (save_dir cwd save_path library)
                                     name j)
       end.
Proof.
  intros Hne Hs Hfree Hfuel.
  set (dir := save_dir cwd save_path library) in *.
  destruct (makedirs_spec dir w) as (Hout & Hadd & Hdir & Hok).
  specialize (Hok Hfree). specialize (Hdir Hok).
  destruct (makedirs dir w) as [r w1] eqn:Hmk. simpl in *. subst r.
  assert (forall q, ~ q `prefix_of` dir -> fs w1 !! q = fs w !! q) as Hsame
    by (intros q; by apply only_adds_dirs_other).
  assert (files (fs w1) = files (fs w)) as Hfiles
    by (by eapply only_adds_dirs_files).
  unfold create_save_path. fold dir. unfold mbind, M_bind. rewrite Hmk.
  rewrite joinpath_filename by (by apply png_filename).
  fold (base_path dir name). unfold path_exists.
  rewrite lookup_node_base_path by done.
  rewrite (Hsame (base_path dir name)) by apply base_path_not_prefix.
  destruct (fs w !! base_path dir name) as [n|] eqn:Hbase.
  - rewrite bool_decide_eq_true_2 by eauto.
    destruct (candidate_free_exists (fs w) dir name fuel Hfuel)
      as (k & Hk & Hkfree).
    destruct (probe_finds dir name fuel 1 w1 Hne Hs)
      as (j & Hj & Hp & Hjfree & Hbelow).
    { exists k. split; [done|].
      by rewrite Hsame by apply candidate_not_prefix. }
    rewrite Hp. unfold lift. rewrite with_stem_candidate by done.
    exists (candidate dir name j), w1.
    split_and!; [done| | |apply parent_snoc|done|done|].
    + by rewrite <- Hsame by apply candidate_not_prefix.
    + by rewrite lookup_node_candidate.
    + exists j. split_and!; [done..|]. intros j' Hj'.
      rewrite <- Hsame by apply candidate_not_prefix. by apply Hbelow.
  - rewrite bool_decide_eq_false_2 by (by intros [? ?]).
    exists (base_path dir name), w1.
    split_and!; [done|done| |apply parent_snoc|done|done|done].
    rewrite lookup_node_base_path by done.
    by rewrite Hsame by apply base_path_not_prefix.
Qed.

(** The download into a path that [create_save_path] returned. *)
Lemma download_images_run fuel save_path library (name url : str) w
    path w' data :
  create_save_path cwd fuel save_path library name w = (Ok path, w') ->
  lookup_node (fs w') path = None ->
  lookup_node (fs w') (parent path) = Some Dir ->
  http url = Some data ->
  download_images cwd http fuel save_path library name url w
  = (Ok (parent path), set_fs (<[path := File data]> (fs w')) w').
Proof.
  intros Hrun Hnone Hdir Hurl.
  unfold download_images, mbind, M_bind. rewrite Hrun.
  unfold urlretrieve. by rewrite Hurl, Hnone, Hdir.
Qed.



End SavePathClaims.

(** ** A run of [create_save_path] with [Foo.png] on disk *)

Section SavePathExamples.
Import PyStr PathLib OS PlexAPI PlexPosterDownload.

Example create_save_path_Foo_1 :
  (create_save_path demo_cwd 5 (Some (py "out")) demo_library (py "Foo")
     demo_world_1).1
  = Ok [py "out"; py "Movies"; py "Foo_1.png"].
Proof. vm_compute. reflexivity. Qed.


Lemma demo_dir_free w :
  (forall d, fs w !! [py "out"] <> Some (File d)) ->
  (forall d, fs w !! [py "out"; py "Movies"] <> Some (File d)) ->
  forall q d,
    q `prefix_of` save_dir demo_cwd (Some (py "out")) demo_library ->
    lookup_node (fs w) q <> Some (File d).
Proof.
  intros H1 H2 q d [k Hk].
  change (save_dir demo_cwd (Some (py "out")) demo_library)
    with [py "out"; py "Movies"] in Hk.
  destruct q as [|a [|b [|c q]]]; simpl in Hk.
  - done.
  - injection Hk as <- _. apply H1.
  - injection Hk as <- <- _. apply H2.
  - discriminate.
Qed.



End SavePathExamples.

(** ** Name sanitization *)

Section SanitizeFacts.
Import PyStr PathLib OS PlexAPI PlexPosterDownload.

Context (unicode_alnum : N -> bool).

(** [runs] cuts the title into its maximal runs: the runs concatenate
    to the title, none is empty, each has one class, and neighbouring
    runs have different classes. *)
Lemma runs_concat s : concat (snd <$> runs unicode_alnum s) = s.
Proof.
  induction s as [|c s IH]; [done|]. simpl.
  destruct (runs unicode_alnum s) as [|[b r] rs]; simpl in *;
    [by rewrite <- IH|].
  destruct (Bool.eqb _ b); simpl; by rewrite <- IH.
Qed.

Lemma runs_uniform s :
  Forall (fun run => run.2 <> []
                     /\ Forall (fun c => is_word unicode_alnum c = run.1) run.2)
         (runs unicode_alnum s).
Proof.
  induction s as [|c s IH]; [by constructor|]. simpl.
  destruct (runs unicode_alnum s) as [|[b r] rs]; simpl in *.
  - constructor; [|done]. split; [done|]. by constructor.
  - apply Forall_cons in IH as [[Hne Hall] IH].
    destruct (Bool.eqb _ b) eqn:E.
    + apply Bool.eqb_prop in E. constructor; [|done].
      split; [done|]. by constructor.
    + constructor; [split; [done|by constructor]|].
      constructor; [by split|done].
Qed.

Lemma runs_alternating s : alternating (runs unicode_alnum s).
Proof.
  induction s as [|c s IH]; [done|]. simpl.
  destruct (runs unicode_alnum s) as [|[b r] rs]; [done|].
  destruct (Bool.eqb _ b) eqn:E.
  - destruct rs; [done|]. exact IH.
  - split; [|exact IH]. simpl. intros H. rewrite H in E.
    by rewrite Bool.eqb_reflx in E.
Qed.

(** The scan of [re.sub], in a run or not. *)
Lemma sub_nonword_runs in_run s :
  sub_nonword unicode_alnum in_run s
  = match in_run, runs unicode_alnum s with
    | true, (false, _) :: rs => concat (render <$> rs)
    | _, _ => replace_runs unicode_alnum s
    end.
Proof.
  revert in_run. induction s as [|c s IH]; intros in_run.
  - by destruct in_run.
  - unfold replace_runs in *. cbn [sub_nonword runs].
    destruct (is_word unicode_alnum c) eqn:Hc.
    + rewrite (IH false).
      destruct (runs unicode_alnum s) as [|[[] r] rs]; simpl;
        by destruct in_run.
    + rewrite (IH true).
      destruct (runs unicode_alnum s) as [|[[] r] rs]; simpl;
        by destruct in_run.
Qed.

End SanitizeFacts.

Section NameClaims.
Import PyStr PathLib OS PlexAPI PlexPosterDownload.

Context (unicode_alnum : N -> bool).

(** C8.  [re.sub('\\W+', ' ', title)] is the title with every maximal
    run of characters that are not word characters replaced by one space:
    the runs make up the title, none is empty, each is made of word
    characters only or of other characters only, neighbouring runs differ
    in that, and the result keeps the runs of word characters and has one
    space for each other run.  "Spider-Man: Far From Home" becomes
    "Spider Man Far From Home". *)
Theorem re_sub_nonword_replaces_runs (s : str) :
  re_sub_nonword unicode_alnum s = replace_runs unicode_alnum s
  /\ concat (snd <$> runs unicode_alnum s) = s
  /\ Forall (fun run =>
               run.2 <> []
               /\ Forall (fun c => is_word unicode_alnum c = run.1) run.2)
            (runs unicode_alnum s)
  /\ alternating (runs unicode_alnum s)
  /\ re_sub_nonword unicode_alnum (py "Spider-Man: Far From Home")
     = py "Spider Man Far From Home".
Proof.
  split_and!.
  - unfold re_sub_nonword. by rewrite sub_nonword_runs.
  - apply runs_concat.
  - apply runs_uniform.
  - apply runs_alternating.
  - reflexivity.
Qed.

End NameClaims.

(** ** The download loop *)

Section LoopFacts.
Import PyStr PathLib OS PlexAPI PlexPosterDownload.

Context (environ : gmap str str) (cwd : Path).
Context (http : str -> option (list N)) (unicode_alnum : N -> bool).

Hypothesis public_ip_unset : environ !! PUBLIC_IP = None.







End LoopFacts.

Section LoopClaims.
Import PyStr PathLib OS PlexAPI PlexPosterDownload.

Context (environ : gmap str str) (cwd : Path).
Context (config_libraries : list str) (PlexServer : str -> str -> res Server).
Context (http : str -> option (list N)) (unicode_alnum : N -> bool).

Lemma thumb_url_of_environ pub token img imgs w :
  environ !! PUBLIC_IP = Some pub ->
  environ !! py "PLEX_TOKEN" = Some token ->
  thumb_url_of environ (img :: imgs) w
  = (Ok (pub ++ url img ++ py "?X-Plex-Token=" ++ token), w).
Proof.
  intros Hp Ht.
  unfold thumb_url_of, environ_getitem, mbind, M_bind, lift, dict_getitem.
  fold PUBLIC_IP. rewrite Hp. simpl. by rewrite Ht.
Qed.

Lemma sub_nonword_chars in_run (s : str) :
  Forall (fun c => is_word unicode_alnum c = true \/ c = N_of_ascii " ")
         (sub_nonword unicode_alnum in_run s).
Proof.
  revert in_run. induction s as [|c s IH]; intros in_run; [by constructor|].
  simpl. destruct (is_word unicode_alnum c) eqn:Hc.
  - constructor; [by left|apply IH].
  - destruct in_run; [apply IH|]. constructor; [by right|apply IH].
Qed.

Lemma video_name_no_slash child : slash ∉ video_name unicode_alnum child.
Proof.
  unfold video_name. rewrite !not_elem_of_app. split_and!.
  - intros Hin. pose proof (sub_nonword_chars false (title child)) as Hall.
    rewrite Forall_forall in Hall. by destruct (Hall _ Hin).
  - compute_done.
  - destruct (year child); [apply str_of_int_no_slash|compute_done].
  - compute_done.
Qed.

(** C4, as the claim states it, fails: a video item whose year is
    unknown is saved under the sanitized title followed by " (None)". *)
Lemma video_name_unknown_year :
  video_name (fun _ => false)
    {| title := py "Heat"; year := None; thumb := Some (py "/thumb/1");
       images := [ {| url := py "/img/1" |} ]; albums := [] |}
  = py "Heat (None)"
  /\ video_name (fun _ => false)
       {| title := py "Heat"; year := None; thumb := Some (py "/thumb/1");
          images := [ {| url := py "/img/1" |} ]; albums := [] |}
     <> re_sub_nonword (fun _ => false) (py "Heat").
Proof. split; [reflexivity|discriminate]. Qed.

(** C4, amended.  For every video item with a poster, the loop saves the
    poster under the sanitized title followed by " (Y)", where Y is the
    year in decimal when it is known and the text "None" when it is not:
    the suffix is appended in both cases. *)
Theorem video_poster_file_name fuel save_path library child sdp w
    pub token img imgs data :
  thumb child <> None ->
  environ !! PUBLIC_IP = Some pub ->
  environ !! py "PLEX_TOKEN" = Some token ->
  images child = img :: imgs ->
  http (pub ++ url img ++ py "?X-Plex-Token=" ++ token) = Some data ->
  (forall q d, q `prefix_of` save_dir cwd save_path library ->
               lookup_node (fs w) q <> Some (File d)) ->
  (size (fs w) < fuel)%nat ->
  fs w !! base_path (save_dir cwd save_path library)
            (re_sub_nonword unicode_alnum (title child) ++ py " ("
             ++ match year child with
                | Some y => str_of_int y
                | None => py "None"
                end ++ py ")") = None ->
  video_name unicode_alnum child
  = re_sub_nonword unicode_alnum (title child) ++ py " ("
    ++ match year child with
       | Some y => str_of_int y
       | None => py "None"
       end ++ py ")"
  /\ exists w',
       child_step environ cwd http unicode_alnum fuel save_path library
         (py "video") child sdp w
       = (Ok (Some (save_dir cwd save_path library)), w')
       /\ files (fs w')
          = <[base_path (save_dir cwd save_path library)
                (video_name unicode_alnum child) := data]> (files (fs w)).
Proof.
  intros Hthumb Hpub Htok Himg Hhttp Hfree Hfuel Hnew.
  split; [done|].
  change (re_sub_nonword unicode_alnum (title child) ++ py " ("
          ++ match year child with
             | Some y => str_of_int y
             | None => py "None"
             end ++ py ")")
    with (video_name unicode_alnum child) in Hnew.
  destruct (create_save_path_run cwd fuel save_path library
              (video_name unicode_alnum child) w)
    as (path & w1 & Hrun & _ & Hnone & Hpar & Hdir & Hfiles & Hshape);
    [by unfold video_name; destruct (re_sub_nonword _ _)
    |apply video_name_no_slash|done|done|].
  rewrite Hnew in Hshape. subst path. rewrite <- Hpar in Hdir.
  pose proof (download_images_run cwd http fuel save_path library
                (video_name unicode_alnum child) _ w _ w1 data
                Hrun Hnone Hdir Hhttp) as Hdl.
  eexists. split.
  - unfold child_step.
    rewrite bool_decide_eq_false_2 by discriminate.
    destruct (thumb child) as [t|]; [|done].
    unfold mbind, M_bind. rewrite Himg.
    rewrite (thumb_url_of_environ pub token) by done.
    rewrite Hdl. by rewrite Hpar.
  - simpl. by rewrite files_insert_file, Hfiles.
Qed.

End LoopClaims.

Section MainClaims.
Import PyStr PathLib OS PlexAPI PlexPosterDownload.

Context (environ : gmap str str) (cwd : Path).
Context (config_libraries : list str) (PlexServer : str -> str -> res Server).
Context (http : str -> option (list N)) (unicode_alnum : N -> bool).



End MainClaims.

(** ** A run of the loop on one movie *)

Section LoopExamples.
Import PyStr PathLib OS PlexAPI PlexPosterDownload.

Lemma video_poster_file_name_witness :
  video_name (fun _ => false) (demo_movie None)
  = py "Spider Man Far From Home (None)"
  /\ exists w',
       child_step demo_environ_public demo_cwd demo_http (fun _ => false) 1
         (Some (py "out")) (py "Movies", demo_section None) (py "video")
         (demo_movie None) None demo_world_0
       = (Ok (Some [py "out"; py "Movies"]), w')
       /\ files (fs w')
          = <[ [py "out"; py "Movies";
                py "Spider Man Far From Home (None).png"] := py "PNG" ]> ∅.
Proof.
  destruct (video_poster_file_name demo_environ_public demo_cwd demo_http
              (fun _ => false) 1 (Some (py "out"))
              (py "Movies", demo_section None) (demo_movie None) None
              demo_world_0 (py "https://plex.example.org") (py "secret")
              {| url := py "/library/metadata/7/thumb/1" |} [] (py "PNG"))
    as (Hname & w' & Hrun & Hfiles).
  - discriminate.
  - reflexivity.
  - reflexivity.
  - reflexivity.
  - reflexivity.
  - intros q d [k Hk].
    change (save_dir demo_cwd (Some (py "out")) (py "Movies", demo_section None))
      with [py "out"; py "Movies"] in Hk.
    destruct q as [|a [|b [|c q]]]; simpl in Hk; [done| | |discriminate].
    + injection Hk as <- _. discriminate.
    + injection Hk as <- <- _. discriminate.
  - vm_compute. lia.
  - reflexivity.
  - split; [reflexivity|]. exists w'. split; [exact Hrun|exact Hfiles].
Defined.


End LoopExamples.

(** * Further properties *)

(** ** [get_item_guid]: outcomes *)

Section GuidOutcomes.
Import PyStr PathLib OS PlexAPI PlexConnection.

Lemma for_sources_selected title full sources :
  for_sources title full sources
  = match selected_source title sources with
    | None => Ok (py "-1")
    | Some s => extract title s full
    end.
Proof.
  unfold selected_source. induction sources as [|s sources IH]; [done|].
  cbn [for_sources list_find]. rewrite IH.
  destruct (Z.eqb_spec (find title s) (-1)) as [E|E].
  - rewrite decide_False by (by intros H). cbn [fmap option_fmap option_map].
    by destruct (list_find _ sources) as [[i x]|].
  - by rewrite decide_True.
Qed.

Lemma getitem_last_cons {A} (x : A) (l : list A) :
  exists y, last (x :: l) = Some y /\ getitem (x :: l) (-1) = Ok y.
Proof.
  destruct (last (x :: l)) as [y|] eqn:E.
  - exists y. split; [done|]. by apply getitem_last.
  - by apply last_None in E.
Qed.

Lemma extract_outcome title s :
  (exists g, extract title s false = Ok g
             /\ extract title s true = Ok (s ++ py "://" ++ g))
  \/ (s = py "plex" /\ extract title s false = Raise IndexError
                    /\ extract title s true = Raise IndexError).
Proof.
  unfold extract. destruct (decide (s = py "plex")) as [->|Hs].
  - rewrite split_pieces by done. cbn [mbind res_bind]. unfold pieces.
    destruct (split_aux (py "plex://") 0 title) as [p ps].
    destruct (getitem_last_cons p ps) as (y & _ & ->). cbn [mbind res_bind].
    destruct (split_ws y) as [|w ws].
    + right. by rewrite getitem_nil.
    + left. exists w. by rewrite (getitem_head (w :: ws) w).
  - left. rewrite split_pieces by done. cbn [mbind res_bind]. unfold pieces.
    destruct (split_aux (py "{" ++ s ++ py "-") 0 title) as [p ps].
    destruct (getitem_last_cons p ps) as (y & _ & ->). cbn [mbind res_bind].
    rewrite split_pieces by done. cbn [mbind res_bind]. unfold pieces.
    destruct (split_aux (py "}") 0 y) as [q qs].
    exists q. by rewrite (getitem_head (q :: qs) q).
Qed.

(** X1.  For a known kind, the outcome of [get_item_guid] is decided by
    the first source of the priority list whose name occurs in the
    title.  With no such source both forms return "-1", without any
    prefix.  Otherwise the full form is that source, "://" and the short
    form; the only failure is an [IndexError], for the source "plex",
    and it is the same in both forms. *)
Theorem get_item_guid_full_short title kind sources :
  lib_sources !! kind = Some sources ->
  match selected_source title sources with
  | None =>
      get_item_guid title kind false = Ok (py "-1")
      /\ get_item_guid title kind true = Ok (py "-1")
  | Some s =>
      (exists g, get_item_guid title kind false = Ok g
                 /\ get_item_guid title kind true = Ok (s ++ py "://" ++ g))
      \/ (s = py "plex"
          /\ get_item_guid title kind false = Raise IndexError
          /\ get_item_guid title kind true = Raise IndexError)
  end.
Proof.
  intros Hk. unfold get_item_guid, dict_getitem. rewrite Hk.
  cbn [mbind res_bind]. rewrite !for_sources_selected.
  destruct (selected_source title sources) as [s|]; [|done].
  destruct (extract_outcome title s) as [(g & -> & ->)|(-> & -> & ->)].
  - left. by exists g.
  - right. done.
Qed.

Lemma get_item_guid_full_short_witness :
  lib_sources !! py "show" = Some [py "tvdb"; py "tmdb"; py "plex"]
  /\ exists g,
       get_item_guid (py "Dark {tmdb-70523} {tvdb-334824}") (py "show") false
       = Ok g
       /\ get_item_guid (py "Dark {tmdb-70523} {tvdb-334824}") (py "show") true
          = Ok (py "tvdb" ++ py "://" ++ g).
Proof.
  split; [reflexivity|].
  pose proof (get_item_guid_full_short (py "Dark {tmdb-70523} {tvdb-334824}")
                (py "show") [py "tvdb"; py "tmdb"; py "plex"] eq_refl) as H.
  change (selected_source (py "Dark {tmdb-70523} {tvdb-334824}")
            [py "tvdb"; py "tmdb"; py "plex"]) with (Some (py "tvdb")) in H.
  destruct H as [H|(H & _)]; [exact H|discriminate H].
Defined.

End GuidOutcomes.

Section GuidShape.
Import PyStr PathLib OS PlexAPI PlexConnection.

Lemma split_aux_head_no_sep c (s : str) p ps :
  split_aux [c] O s = (p, ps) -> c ∉ p.
Proof.
  revert p ps. induction s as [|x s IH]; intros p ps.
  - intros [= <- _]. apply not_elem_of_nil.
  - cbn [split_aux startswith length].
    destruct (N.eqb_spec c x) as [->|Hne]; cbn [andb].
    + intros [= <- _]. apply not_elem_of_nil.
    + destruct (split_aux [c] 0 s) as [p' ps'] eqn:E.
      intros [= <- _]. apply not_elem_of_cons. split; [done|by eapply IH].
Qed.

Lemma split_ws_words (s : str) :
  Forall (fun w => w <> [] /\ Forall (fun c => isspace c = false) w)
         (split_ws s).
Proof.
  induction s as [|c s IH]; [by constructor|].
  rewrite split_ws_cons. destruct (isspace c) eqn:Hc; [done|].
  destruct s as [|d s]; [by repeat constructor|].
  destruct (isspace d) eqn:Hd.
  - constructor; [|done]. by repeat constructor.
  - destruct (split_ws (d :: s)) as [|w ws]; [by repeat constructor|].
    apply Forall_cons in IH as [[Hw Hall] IH].
    constructor; [|done]. split; [done|]. by constructor.
Qed.

Lemma split_ws_spaces (ws : str) :
  Forall (fun c => isspace c = true) ws -> split_ws ws = [].
Proof.
  induction 1 as [|c ws Hc _ IH]; [done|]. by rewrite split_ws_cons, Hc.
Qed.

(** X2.  The short form that [get_item_guid] returns for a known kind:
    "-1" when no source name occurs in the title; for the source "plex"
    a word, not empty and without white space; for the other sources a
    text without a closing brace. *)
Theorem get_item_guid_short_shape title kind sources (g : str) :
  lib_sources !! kind = Some sources ->
  get_item_guid title kind false = Ok g ->
  match selected_source title sources with
  | None => g = py "-1"
  | Some s =>
      if decide (s = py "plex")
      then g <> [] /\ Forall (fun c => isspace c = false) g
      else N_of_ascii "}" ∉ g
  end.
Proof.
  intros Hk. unfold get_item_guid, dict_getitem. rewrite Hk.
  cbn [mbind res_bind]. rewrite for_sources_selected.
  destruct (selected_source title sources) as [s|].
  2:{ by intros [= <-]. }
  unfold extract. destruct (decide (s = py "plex")) as [->|Hs].
  - rewrite split_pieces by done. cbn [mbind res_bind]. unfold pieces.
    destruct (split_aux (py "plex://") 0 title) as [p ps].
    destruct (getitem_last_cons p ps) as (y & _ & ->). cbn [mbind res_bind].
    pose proof (split_ws_words y) as Hall.
    destruct (split_ws y) as [|w ws]; [by rewrite getitem_nil|].
    rewrite (getitem_head (w :: ws) w) by done. cbn [mbind res_bind].
    intros [= <-]. by apply Forall_cons in Hall as [Hw _].
  - rewrite split_pieces by done. cbn [mbind res_bind]. unfold pieces.
    destruct (split_aux (py "{" ++ s ++ py "-") 0 title) as [p ps].
    destruct (getitem_last_cons p ps) as (y & _ & ->). cbn [mbind res_bind].
    rewrite split_pieces by done. cbn [mbind res_bind]. unfold pieces.
    destruct (split_aux (py "}") 0 y) as [q qs] eqn:E.
    rewrite (getitem_head (q :: qs) q) by done. cbn [mbind res_bind].
    intros [= <-]. by eapply (split_aux_head_no_sep (N_of_ascii "}")).
Qed.

Lemma get_item_guid_short_shape_witness :
  get_item_guid (py "Heat {imdb-tt0113277} 1995") (py "movie") false
  = Ok (py "tt0113277")
  /\ N_of_ascii "}" ∉ py "tt0113277".
Proof.
  split; [reflexivity|].
  exact (get_item_guid_short_shape (py "Heat {imdb-tt0113277} 1995")
           (py "movie") [py "tmdb"; py "imdb"; py "plex"] (py "tt0113277")
           eq_refl eq_refl).
Defined.

(** X3.  When the source read is "plex" and nothing but white space
    follows the last "plex://" of the title, [title.split("plex://")[-1]
    .split()] is empty and its first element is asked for: the call
    raises [IndexError], which the handler for [KeyError] lets through. *)
Theorem get_item_guid_plex_index_error title kind skipped rest
    (pre ws : str) full :
  lib_sources !! kind = Some (skipped ++ py "plex" :: rest) ->
  Forall (fun s => ~ occurs s title) skipped ->
  title = pre ++ py "plex://" ++ ws ->
  Forall (fun c => isspace c = true) ws ->
  get_item_guid title kind full = Raise IndexError.
Proof.
  intros Hk Hsk -> Hws. unfold get_item_guid, dict_getitem. rewrite Hk.
  cbn [mbind res_bind]. rewrite for_sources_first; [|done|].
  2:{ by exists pre, (py "://" ++ ws). }
  unfold extract. rewrite decide_True by done.
  rewrite split_pieces by done. cbn [mbind res_bind].
  rewrite (getitem_last _ ws).
  - cbn [mbind res_bind]. rewrite split_ws_spaces by done.
    by rewrite getitem_nil.
  - apply (pieces_last (N_of_ascii "p") (py "lex://")); [compute_done|].
    intros (a & b & ->). rewrite Forall_forall in Hws.
    assert (isspace (N_of_ascii "p") = true) as Habs; [|discriminate Habs].
    apply Hws. apply elem_of_app. right. left.
Qed.

Lemma get_item_guid_plex_index_error_witness :
  get_item_guid (py "Heat (1995) " ++ py "plex://" ++ py " ") (py "movie")
    false = Raise IndexError.
Proof.
  apply (get_item_guid_plex_index_error _ (py "movie") [py "tmdb"; py "imdb"]
           [] (py "Heat (1995) ") (py " ") false).
  - reflexivity.
  - repeat constructor; apply find_not_occurs; reflexivity.
  - reflexivity.
  - repeat constructor.
Defined.

End GuidShape.

(** ** [load_config], [plex_setup] and [get_libraries] *)

Section ConnectionFacts.
Import PyStr PathLib OS PlexAPI PlexConnection.

Context (environ : gmap str str) (config_libraries : list str).
Context (PlexServer : str -> str -> res Server).

Lemma check_ip_spec (ip : str) :
  (check_ip (Some ip) = Ok tt /\ valid_ip ip)
  \/ (check_ip (Some ip) = Raise (SystemExit InvalidIP) /\ ~ valid_ip ip).
Proof.
  unfold check_ip, valid_ip, truthy.
  destruct ip as [|c ip]; [left; split; [done|by left]|].
  destruct (decide (take 7 (c :: ip) = py "http://")) as [H7|H7].
  { left. rewrite (bool_decide_eq_true_2 _ H7). split; [done|]. right. by left. }
  destruct (decide (take 8 (c :: ip) = py "https://")) as [H8|H8].
  { left. rewrite (bool_decide_eq_true_2 _ H8), (bool_decide_eq_false_2 _ H7).
    split; [done|]. right. by right. }
  right. rewrite (bool_decide_eq_false_2 _ H7), (bool_decide_eq_false_2 _ H8).
  split; [done|]. intros [|[|]]; done.
Qed.


(** X5.  What [load_config] returns: the token is PLEX_TOKEN; the
    address is PLEX_SERVER_IP when that is set, with PLEX_SERVER_PUBLIC_IP
    as the second address, and it is PLEX_SERVER_PUBLIC_IP, marked as
    public and with no second address, when PLEX_SERVER_IP is unset. *)
Theorem load_config_result public (token ip : str) pub_ip libs :
  load_config environ config_libraries = Ok (public, token, ip, pub_ip, libs) ->
  environ !! py "PLEX_TOKEN" = Some token
  /\ libs = config_libraries
  /\ valid_ip ip
  /\ (forall p, pub_ip = Some p -> valid_ip p)
  /\ if public
     then environ !! py "PLEX_SERVER_IP" = None
          /\ environ !! py "PLEX_SERVER_PUBLIC_IP" = Some ip
          /\ pub_ip = None
     else environ !! py "PLEX_SERVER_IP" = Some ip
          /\ pub_ip = environ !! py "PLEX_SERVER_PUBLIC_IP".
Proof.
  unfold load_config.
  destruct (environ !! py "PLEX_TOKEN") as [t|]; [|done].
  cbn [mbind res_bind].
  destruct (environ !! py "PLEX_SERVER_IP") as [a|] eqn:Hip.
  - cbn [mbind res_bind].
    destruct (check_ip_spec a) as [[-> Hv]|[-> Hv]]; cbn [mbind res_bind];
      [|done].
    destruct (environ !! py "PLEX_SERVER_PUBLIC_IP") as [pub|] eqn:Hpub.
    + destruct (check_ip_spec pub) as [[-> Hp]|[-> Hp]]; cbn [mbind res_bind];
        [|done].
      intros [= <- <- <- <- <-].
      split_and!; [done..|by intros ? [= <-]|done|done].
    + cbn [check_ip mbind res_bind]. intros [= <- <- <- <- <-].
      split_and!; done.
  - destruct (environ !! py "PLEX_SERVER_PUBLIC_IP") as [pub|] eqn:Hpub;
      [|done].
    cbn [mbind res_bind].
    destruct (check_ip_spec pub) as [[-> Hp]|[-> Hp]]; cbn [mbind res_bind];
      [|done].
    cbn [check_ip mbind res_bind]. intros [= <- <- <- <- <-].
    split_and!; done.
Qed.

End ConnectionFacts.

Section ConnectionClaims.
Import PyStr PathLib OS PlexAPI PlexConnection.

Lemma load_config_result_witness :
  load_config demo_environ_public [py "Movies"]
  = Ok (false, py "secret", py "http://192.168.1.2:32400",
        Some (py "https://plex.example.org"), [py "Movies"])
  /\ valid_ip (py "http://192.168.1.2:32400").
Proof.
  split; [reflexivity|].
  destruct (load_config_result demo_environ_public [py "Movies"] false
              (py "secret") (py "http://192.168.1.2:32400")
              (Some (py "https://plex.example.org")) [py "Movies"] eq_refl)
    as (_ & _ & Hv & _).
  exact Hv.
Defined.

(** X6.  When [PlexServer] raises nothing but [InvalidURL],
    [RequestException] and [Unauthorized], [plex_setup] either returns a
    server or exits.  The server is the one at the first address, or, only
    when the first address raised [RequestException] and the second
    address is set and not empty, the one at the second address.  An
    invalid URL or a refused token at the first address exits at once. *)
Theorem plex_setup_outcome (PlexServer : str -> str -> res Server)
    public (token ip : str) pub_ip :
  (forall a, match PlexServer a token with
             | Ok _ | Raise InvalidURL | Raise RequestException
             | Raise Unauthorized => True
             | _ => False
             end) ->
  match plex_setup PlexServer public token ip pub_ip with
  | Ok server =>
      PlexServer ip token = Ok server
      \/ (PlexServer ip token = Raise RequestException
          /\ exists p, pub_ip = Some p /\ p <> []
                       /\ PlexServer p token = Ok server)
  | Raise (SystemExit InvalidURLMessage) => PlexServer ip token = Raise InvalidURL
  | Raise (SystemExit InvalidToken) =>
      PlexServer ip token = Raise Unauthorized
      \/ (PlexServer ip token = Raise RequestException
          /\ exists p, pub_ip = Some p /\ p <> []
                       /\ PlexServer p token = Raise Unauthorized)
  | Raise (SystemExit (Unreachable b)) =>
      b = public /\ PlexServer ip token = Raise RequestException
      /\ (pub_ip = None \/ pub_ip = Some [])
  | Raise (SystemExit UnreachableBoth) =>
      PlexServer ip token = Raise RequestException
      /\ exists p, pub_ip = Some p /\ p <> []
                   /\ (PlexServer p token = Raise RequestException
                       \/ PlexServer p token = Raise InvalidURL)
  | _ => False
  end.
Proof.
  intros Hexn. unfold plex_setup.
  pose proof (Hexn ip) as H1.
  destruct (PlexServer ip token) as [server|e|] eqn:E1; [by left| |done].
  destruct e; try done; [|by left].
  destruct pub_ip as [[|c p]|]; cbn [truthy default from_option id].
  - split_and!; [done|done|by right].
  - pose proof (Hexn (c :: p)) as H2.
    destruct (PlexServer (c :: p) token) as [server|e|] eqn:E2; [| |done].
    + right. split; [done|]. by exists (c :: p).
    + destruct e; try done.
      * split; [done|]. exists (c :: p). split_and!; [done..|by right].
      * split; [done|]. exists (c :: p). split_and!; [done..|by left].
      * right. split; [done|]. by exists (c :: p).
  - split_and!; [done|done|by left].
Qed.

Lemma plex_setup_outcome_witness :
  plex_setup demo_PlexServer_public false (py "secret")
    (py "http://192.168.1.2:32400") (Some (py "https://plex.example.org"))
  = Ok demo_server
  /\ demo_PlexServer_public (py "http://192.168.1.2:32400") (py "secret")
     = Raise RequestException.
Proof.
  split; [reflexivity|].
  assert (forall a, match demo_PlexServer_public a (py "secret") with
                    | Ok _ | Raise InvalidURL | Raise RequestException
                    | Raise Unauthorized => True
                    | _ => False
                    end) as Hexn.
  { intros a. unfold demo_PlexServer_public. by destruct (bool_decide _). }
  pose proof (plex_setup_outcome demo_PlexServer_public false (py "secret")
                (py "http://192.168.1.2:32400")
                (Some (py "https://plex.example.org")) Hexn) as H.
  change (plex_setup demo_PlexServer_public false (py "secret")
            (py "http://192.168.1.2:32400")
            (Some (py "https://plex.example.org")))
    with (@Ok Server demo_server) in H.
  destruct H as [H|[H _]]; [discriminate H|exact H].
Defined.

End ConnectionClaims.

Section LibrariesFacts.
Import PyStr PathLib OS PlexAPI PlexConnection.

Lemma get_libraries_from_spec (server : Server) libs acc :
  (forall l s, (l, s) ∈ acc -> server !! l = Some s) ->
  (forall l, l ∈ libs -> is_Some (server !! l)) ->
  exists r,
    get_libraries_from server libs acc = Ok r
    /\ r.*1 = acc.*1 ++ filter (fun y => y ∉ acc.*1) (dedup_first libs)
    /\ forall l s, (l, s) ∈ r -> server !! l = Some s.
Proof.
  revert acc. induction libs as [|x libs IH]; intros acc Hacc Hall.
  - exists acc. split_and!; [done| |done]. simpl. by rewrite app_nil_r.
  - cbn [get_libraries_from dedup_first].
    destruct (Hall x) as [section Hx]; [left|]. rewrite Hx.
    destruct (decide (x ∈ acc.*1)) as [Hin|Hnin].
    + rewrite (bool_decide_eq_true_2 _ Hin).
      set (acc' := (fun kv : list N * LibrarySection =>
                      if bool_decide (kv.1 = x) then (x, section) else kv)
                   <$> acc).
      assert (acc'.*1 = acc.*1) as Hkeys.
      { unfold acc'. rewrite <- list_fmap_compose. apply list_fmap_ext.
        intros i [k v] _. simpl.
        destruct (decide (k = x)) as [->|Hne];
          [by rewrite bool_decide_eq_true_2|by rewrite bool_decide_eq_false_2]. }
      destruct (IH acc') as (r & Hr & Hk & Hv).
      { intros l s [[k v] [Heq Hkv]]%list_elem_of_fmap. simpl in Heq.
        destruct (decide (k = x)) as [->|Hne].
        - rewrite bool_decide_eq_true_2 in Heq by done. by injection Heq as -> ->.
        - rewrite bool_decide_eq_false_2 in Heq by done.
          injection Heq as -> ->. by apply Hacc. }
      { intros l Hl. apply Hall. by right. }
      exists r. split_and!; [done| |done].
      rewrite Hk, Hkeys. f_equal.
      rewrite filter_cons_False by (by intros H; apply H).
      rewrite list_filter_filter. apply list_filter_iff. intros y. split.
      * intros Hy. split; [done|]. intros ->. by apply Hy.
      * by intros [Hy _].
    + rewrite (bool_decide_eq_false_2 _ Hnin).
      destruct (IH (acc ++ [(x, section)])) as (r & Hr & Hk & Hv).
      { intros l s [Hl|Hl%list_elem_of_singleton]%elem_of_app;
          [by apply Hacc|]. by injection Hl as -> ->. }
      { intros l Hl. apply Hall. by right. }
      exists r. split_and!; [done| |done].
      rewrite Hk, fmap_app. simpl. rewrite <- app_assoc. f_equal. simpl.
      rewrite filter_cons_True by done. f_equal.
      rewrite list_filter_filter. apply list_filter_iff. intros y.
      rewrite not_elem_of_app, list_elem_of_singleton. done.
Qed.

Lemma get_libraries_from_missing (server : Server) before x after acc :
  (forall l, l ∈ before -> is_Some (server !! l)) ->
  server !! x = None ->
  get_libraries_from server (before ++ x :: after) acc
  = Raise (SystemExit (LibraryNotFound x)).
Proof.
  revert acc. induction before as [|b before IH]; intros acc Hall Hx.
  - cbn [app get_libraries_from]. by rewrite Hx.
  - cbn [app get_libraries_from].
    destruct (Hall b) as [section Hb]; [left|]. rewrite Hb.
    apply IH; [|done]. intros l Hl. apply Hall. by right.
Qed.

(** X7.  When the server has every library of the configuration,
    [get_libraries] returns them once each, in the order of their first
    occurrence in the configuration, each with the section that the
    server gives for its name. *)
Theorem get_libraries_ok (self : PlexConnection) :
  (forall l, l ∈ libraries self -> is_Some (plex self !! l)) ->
  exists r,
    get_libraries self = Ok r
    /\ r.*1 = dedup_first (libraries self)
    /\ forall l s, (l, s) ∈ r -> plex self !! l = Some s.
Proof.
  intros Hall. unfold get_libraries.
  destruct (get_libraries_from_spec (plex self) (libraries self) [])
    as (r & Hr & Hk & Hv); [by intros l s ?%elem_of_nil|done|].
  exists r. split_and!; [done| |done].
  rewrite Hk. simpl. clear.
  induction (dedup_first (libraries self)) as [|y l IH]; [done|].
  rewrite filter_cons_True by apply not_elem_of_nil. by f_equal.
Qed.

(** X8.  When the server lacks a library of the configuration,
    [get_libraries] exits and names the first one that is missing. *)
Theorem get_libraries_missing (self : PlexConnection) before x after :
  libraries self = before ++ x :: after ->
  (forall l, l ∈ before -> is_Some (plex self !! l)) ->
  plex self !! x = None ->
  get_libraries self = Raise (SystemExit (LibraryNotFound x)).
Proof.
  intros Hl Hall Hx. unfold get_libraries. rewrite Hl.
  by apply get_libraries_from_missing.
Qed.

End LibrariesFacts.

(** ** [create_save_path] and [download_images]: more on their runs *)

Section DownloadFacts.
Import PyStr PathLib OS PlexAPI PlexPosterDownload.

Context (cwd : Path) (http : str -> option (list N)).

Lemma only_adds_dirs_subseteq (p : Path) (f f' : gmap Path node) :
  only_adds_dirs p f f' -> f ⊆ f'.
Proof.
  intros H. apply map_subseteq_spec. intros q n Hq.
  destruct (H q) as [->|(_ & Hn%lookup_node_None & _)]; [done|].
  by rewrite Hq in Hn.
Qed.

(** Whatever it returns, [create_save_path] leaves the world that
    [makedirs] left, and a path it returns does not exist there. *)
Lemma create_save_path_general fuel save_path library (name : str) w :
  (create_save_path cwd fuel save_path library name w).2
  = (makedirs (save_dir cwd save_path library) w).2
  /\ forall path,
       (create_save_path cwd fuel save_path library name w).1 = Ok path ->
       (makedirs (save_dir cwd save_path library) w).1 = Ok tt
       /\ lookup_node (fs (makedirs (save_dir cwd save_path library) w).2) path
          = None.
Proof.
  set (dir := save_dir cwd save_path library).
  unfold create_save_path. fold dir. unfold mbind, M_bind.
  destruct (makedirs dir w) as [[[]|e|] w1]; simpl; [|by split..].
  unfold path_exists.
  destruct (lookup_node (fs w1) (joinpath dir (name ++ py ".png"))) eqn:Hb.
  - rewrite bool_decide_eq_true_2 by eauto.
    destruct (probe_frame fuel (joinpath dir (name ++ py ".png")) name 1 w1)
      as [Hst Hj].
    destruct (probe _ _ _ _ _) as [[j| |] w2]; simpl in *; subst;
      [|by split..].
    destruct (Hj j eq_refl) as (p & Hp & Hnone). unfold lift. rewrite Hp.
    simpl. split; [done|]. by intros path [= <-].
  - rewrite bool_decide_eq_false_2 by (by intros [? ?]).
    simpl. split; [done|]. by intros path [= <-].
Qed.

(** [makedirs] fails with [FileExistsError] only on a regular file. *)
Lemma makedirs_rev_exists_error rp w :
  (makedirs_rev rp w).1 = Raise FileExistsError ->
  exists d, lookup_node (fs w) (reverse rp) = Some (File d).
Proof.
  assert (forall p w0, (mkdir_exist_ok p w0).1 = Raise FileExistsError ->
            exists d, lookup_node (fs w0) p = Some (File d)) as Hmk.
  { intros p w0. unfold mkdir_exist_ok, mkdir, isdir.
    destruct (lookup_node (fs w0) p) as [[|d]|] eqn:Hp; simpl.
    - by rewrite Hp.
    - rewrite Hp. eauto.
    - destruct (lookup_node (fs w0) (parent p)) as [[|d]|]; simpl;
        rewrite ?Hp; done. }
  revert w. induction rp as [|x rhead IH]; intros w; [apply Hmk|].
  cbn [makedirs_rev]. rewrite (reverse_cons rhead x).
  destruct (negb _ && negb _) eqn:Hcond; [|apply Hmk].
  destruct (makedirs_rev_spec rhead w) as (_ & Hadd & _ & _).
  assert (forall w1, only_adds_dirs (reverse rhead) (fs w) (fs w1) ->
    (mkdir_exist_ok (reverse rhead ++ [x]) w1).1 = Raise FileExistsError ->
    exists d, lookup_node (fs w) (reverse rhead ++ [x]) = Some (File d))
    as Hstep.
  { intros w1 Ha [d Hd]%Hmk. exists d.
    destruct (only_adds_dirs_node _ _ _ (reverse rhead ++ [x]) Ha)
      as [E|(_ & _ & E)]; [by rewrite <- E|]. by rewrite E in Hd. }
  destruct (makedirs_rev rhead w) as [[[]|e|] w1]; simpl in *;
    [by apply Hstep| |done].
  destruct e; try done. by apply Hstep.
Qed.

(** After [makedirs] the parent of the directory exists, and a second
    [makedirs] changes nothing. *)
Lemma makedirs_rev_parent x rhead w :
  (makedirs_rev (x :: rhead) w).1 = Ok tt ->
  reverse rhead = []
  \/ is_Some (lookup_node (fs (makedirs_rev (x :: rhead) w).2) (reverse rhead)).
Proof.
  cbn [makedirs_rev]. rewrite (reverse_cons rhead x).
  destruct (negb (bool_decide (reverse rhead = []))
            && negb (bool_decide
                       (is_Some (lookup_node (fs w) (reverse rhead)))))
    eqn:Hcond.
  - apply andb_true_iff in Hcond as [_ Hne].
    apply negb_true_iff, bool_decide_eq_false in Hne.
    destruct (makedirs_rev_spec rhead w) as (_ & _ & Hdir & _).
    pose proof (makedirs_rev_exists_error rhead w) as Hfee.
    destruct (makedirs_rev rhead w) as [[[]|e|] w1]; simpl in *; [| |done].
    + intros _. right.
      destruct (mkdir_exist_ok_spec (reverse rhead ++ [x]) w1)
        as (_ & Ha & _ & _).
      destruct (only_adds_dirs_node _ _ _ (reverse rhead) Ha)
        as [->|(_ & _ & ->)]; [rewrite Hdir|]; eauto.
    + destruct e; try done. destruct Hfee as [d Hd]; [done|].
      destruct Hne. eauto.
  - intros _. apply andb_false_iff in Hcond as [Hc|Hc].
    + left. by apply negb_false_iff, bool_decide_eq_true in Hc.
    + right. apply negb_false_iff, bool_decide_eq_true in Hc.
      destruct (mkdir_exist_ok_spec (reverse rhead ++ [x]) w)
        as (_ & Ha & _ & _).
      destruct Hc as [n Hn].
      destruct (only_adds_dirs_node _ _ _ (reverse rhead) Ha)
        as [->|(_ & Hnone & _)]; [eauto|]. by rewrite Hn in Hnone.
Qed.

Lemma mkdir_exist_ok_dir p w :
  lookup_node (fs w) p = Some Dir -> mkdir_exist_ok p w = (Ok tt, w).
Proof.
  intros H. unfold mkdir_exist_ok, mkdir, isdir. rewrite H. simpl.
  by rewrite H.
Qed.

Lemma makedirs_rev_again rp w :
  lookup_node (fs w) (reverse rp) = Some Dir ->
  (forall x rhead, rp = x :: rhead ->
     reverse rhead = [] \/ is_Some (lookup_node (fs w) (reverse rhead))) ->
  makedirs_rev rp w = (Ok tt, w).
Proof.
  intros Hdir Hpar. destruct rp as [|x rhead].
  - by apply mkdir_exist_ok_dir.
  - cbn [makedirs_rev].
    destruct (Hpar x rhead eq_refl) as [->|Hex].
    + rewrite bool_decide_eq_true_2 by done. by apply mkdir_exist_ok_dir.
    + rewrite (bool_decide_eq_true_2 _ Hex), andb_false_r.
      by apply mkdir_exist_ok_dir.
Qed.

Lemma makedirs_twice p w :
  (makedirs p w).1 = Ok tt ->
  makedirs p (makedirs p w).2 = (Ok tt, (makedirs p w).2).
Proof.
  unfold makedirs. intros Hok. apply makedirs_rev_again.
  - by apply makedirs_rev_spec.
  - intros x rhead E. rewrite E in *. by apply makedirs_rev_parent.
Qed.

End DownloadFacts.

Section DownloadClaims.
Import PyStr PathLib OS PlexAPI PlexPosterDownload.

Context (cwd : Path) (http : str -> option (list N)).

(** X9.  [create_save_path] asked twice, with no download in between,
    answers the same path twice, and its second run changes nothing:
    the path is only chosen, not reserved. *)
Theorem create_save_path_twice fuel save_path library (name : str) w path w' :
  create_save_path cwd fuel save_path library name w = (Ok path, w') ->
  create_save_path cwd fuel save_path library name w' = (Ok path, w').
Proof.
  intros Hrun.
  destruct (create_save_path_general cwd fuel save_path library name w)
    as [Hw Hok].
  rewrite Hrun in Hw, Hok. simpl in Hw.
  destruct (Hok path eq_refl) as [Hmk _].
  pose proof (makedirs_twice _ _ Hmk) as Hagain. rewrite <- Hw in Hagain.
  unfold create_save_path, mbind, M_bind in *. rewrite Hagain.
  destruct (makedirs (save_dir cwd save_path library) w) as [r w1].
  simpl in *. subst. exact Hrun.
Qed.

(** One download, with the world it leaves. *)
Lemma download_step fuel save_path library (name url : str) data w :
  name <> [] -> slash ∉ name ->
  (forall q d, q `prefix_of` save_dir cwd save_path library ->
               lookup_node (fs w) q <> Some (File d)) ->
  (size (fs w) < fuel)%nat ->
  http url = Some data ->
  exists path,
    download_images cwd http fuel save_path library name url w
    = (Ok (save_dir cwd save_path library),
       set_fs (<[path := File data]>
                 (fs (makedirs (save_dir cwd save_path library) w).2))
              (makedirs (save_dir cwd save_path library) w).2)
    /\ fs w !! path = None
    /\ fs (makedirs (save_dir cwd save_path library) w).2 !! path = None
    /\ ~ path `prefix_of` save_dir cwd save_path library
    /\ (fs w !! base_path (save_dir cwd save_path library) name = None ->
        path = base_path (save_dir cwd save_path library) name).
Proof.
  intros Hne Hs Hfree Hfuel Hurl.
  destruct (create_save_path_run cwd fuel save_path library name w
              Hne Hs Hfree Hfuel)
    as (path & w' & Hrun & Hnew & Hnone & Hpar & Hdir & Hfiles & Hshape).
  destruct (create_save_path_general cwd fuel save_path library name w)
    as [Hw _].
  rewrite Hrun in Hw. simpl in Hw. subst w'.
  exists path.
  assert (lookup_node (fs (makedirs (save_dir cwd save_path library) w).2)
            (parent path) = Some Dir) as Hdir' by (by rewrite Hpar).
  rewrite (download_images_run cwd http fuel save_path library name url w
             path _ data Hrun Hnone Hdir' Hurl), Hpar.
  split_and!; [done|done|by apply lookup_node_None| |].
  - destruct (fs w !! base_path _ name).
    + destruct Hshape as (i & _ & -> & _). apply candidate_not_prefix.
    + subst path. apply base_path_not_prefix.
  - intros Hb. by rewrite Hb in Hshape.
Qed.

(** X10.  Two downloads in a row under one name, given fuel for the
    loops: both succeed, they write two different paths that did not
    exist, and afterwards the files are those of before and the two new
    ones, each with its own data.  The second poster does not replace
    the first. *)
Theorem download_images_twice save_path library (name url1 url2 : str)
    d1 d2 w :
  name <> [] -> slash ∉ name ->
  (forall q d, q `prefix_of` save_dir cwd save_path library ->
               lookup_node (fs w) q <> Some (File d)) ->
  http url1 = Some d1 -> http url2 = Some d2 ->
  exists fuel0, forall fuel, (fuel0 <= fuel)%nat ->
    exists p1 p2 w1 w2,
      download_images cwd http fuel save_path library name url1 w
      = (Ok (save_dir cwd save_path library), w1)
      /\ download_images cwd http fuel save_path library name url2 w1
         = (Ok (save_dir cwd save_path library), w2)
      /\ p1 <> p2
      /\ files (fs w) !! p1 = None /\ files (fs w) !! p2 = None
      /\ files (fs w2) = <[p2 := d2]> (<[p1 := d1]> (files (fs w))).
Proof.
  intros Hne Hs Hfree Hu1 Hu2.
  set (dir := save_dir cwd save_path library) in *.
  destruct (makedirs_spec dir w) as (_ & Hadd & _ & _).
  set (wm := (makedirs dir w).2) in *.
  exists (size (fs wm) + 2)%nat. intros fuel Hfuel.
  pose proof (map_subseteq_size _ _ (only_adds_dirs_subseteq _ _ _ Hadd))
    as Hsize.
  destruct (download_step fuel save_path library name url1 d1 w)
    as (p1 & Hrun1 & Hnew1 & Hnew1' & Hnp1 & _); [done..|lia|done|].
  fold dir in Hrun1, Hnew1', Hnp1. fold wm in Hrun1, Hnew1'.
  set (w1 := set_fs (<[p1 := File d1]> (fs wm)) wm) in *.
  assert (forall q, q <> p1 -> fs w1 !! q = fs wm !! q) as Hother
    by (intros q Hq; by apply lookup_insert_ne).
  destruct (download_step fuel save_path library name url2 d2 w1)
    as (p2 & Hrun2 & Hnew2 & Hnew2' & Hnp2 & _); [done|done| | |done|].
  { intros q d Hq Hfile.
    assert (q <> p1) as Hqp by (by intros ->).
    rewrite (lookup_node_ext (fs wm) (fs w1) q) in Hfile by (by apply Hother).
    destruct (only_adds_dirs_node _ _ _ q Hadd) as [E|(_ & _ & E)];
      rewrite E in Hfile; [by eapply Hfree|done]. }
  { unfold w1. simpl. rewrite map_size_insert_None by done. lia. }
  fold dir in Hrun2, Hnew2', Hnp2.
  destruct (makedirs_spec dir w1) as (_ & Hadd2 & _ & _).
  assert (p1 <> p2) as Hne12.
  { intros ->. unfold w1 in Hnew2. simpl in Hnew2.
    by rewrite lookup_insert_eq in Hnew2. }
  assert (fs w !! p2 = None) as Hnew2w.
  { rewrite Hother in Hnew2 by done.
    destruct (Hadd p2) as [E|(Hp & _)]; [by rewrite <- E|done]. }
  eexists p1, p2, _, _.
  split_and!; [exact Hrun1|exact Hrun2|done
              |by apply files_lookup_None|by apply files_lookup_None|].
  simpl. rewrite files_insert_file.
  rewrite (only_adds_dirs_files _ _ _ Hadd2). unfold w1. simpl.
  rewrite files_insert_file. by rewrite (only_adds_dirs_files _ _ _ Hadd).
Qed.


End DownloadClaims.

Section DownloadExamples.
Import PyStr PathLib OS PlexAPI PlexPosterDownload.

Lemma create_save_path_twice_witness :
  exists w',
    create_save_path demo_cwd 5 (Some (py "out")) demo_library (py "Foo")
      demo_world_0
    = (Ok [py "out"; py "Movies"; py "Foo.png"], w')
    /\ fs w' !! [py "out"; py "Movies"] = Some Dir
    /\ create_save_path demo_cwd 5 (Some (py "out")) demo_library (py "Foo") w'
       = (Ok [py "out"; py "Movies"; py "Foo.png"], w').
Proof.
  eexists. split; [vm_compute; reflexivity|]. split; [reflexivity|].
  apply (create_save_path_twice demo_cwd 5 (Some (py "out")) demo_library
           (py "Foo") demo_world_0).
  vm_compute. reflexivity.
Defined.

End DownloadExamples.

(** ** Names *)

Section NameFacts.
Import PyStr PathLib OS PlexAPI PlexPosterDownload.

Context (unicode_alnum : N -> bool).

Lemma re_sub_nonword_no_slash (s : str) : slash ∉ re_sub_nonword unicode_alnum s.
Proof.
  intros Hin. pose proof (sub_nonword_chars unicode_alnum false s) as Hall.
  rewrite Forall_forall in Hall. by destruct (Hall _ Hin).
Qed.

(** X12.  The name that the loop gives to a poster, of a video item or
    of an album, with ".png" after it, is one path component: joined to
    the library directory it gives a file directly in that directory,
    whatever the title was. *)
Theorem poster_path_in_library_dir (dir : Path) child album :
  joinpath dir (video_name unicode_alnum child ++ py ".png")
  = dir ++ [video_name unicode_alnum child ++ py ".png"]
  /\ joinpath dir (album_name unicode_alnum album ++ py ".png")
     = dir ++ [album_name unicode_alnum album ++ py ".png"].
Proof.
  split; apply joinpath_filename, png_filename.
  - apply video_name_no_slash.
  - apply re_sub_nonword_no_slash.
Qed.

Lemma sub_nonword_idempotent in_run (s : str) :
  sub_nonword unicode_alnum in_run (sub_nonword unicode_alnum in_run s)
  = sub_nonword unicode_alnum in_run s.
Proof.
  revert in_run. induction s as [|c s IH]; intros in_run; [done|].
  cbn [sub_nonword]. destruct (is_word unicode_alnum c) eqn:Hc.
  - cbn [sub_nonword]. rewrite Hc. destruct in_run; by rewrite IH.
  - destruct in_run; [apply IH|].
    cbn [sub_nonword]. change (is_word unicode_alnum (N_of_ascii " "))
      with false. cbv iota. by rewrite IH.
Qed.

(** X13.  Sanitizing a title twice gives what sanitizing it once
    gives. *)
Theorem re_sub_nonword_idempotent (s : str) :
  re_sub_nonword unicode_alnum (re_sub_nonword unicode_alnum s)
  = re_sub_nonword unicode_alnum s.
Proof. apply sub_nonword_idempotent. Qed.

Lemma str_of_year_inj y1 y2 : str_of_year y1 = str_of_year y2 -> y1 = y2.
Proof.
  assert (forall n, str_of_int n <> py "None") as Hnone.
  { intros n H. pose proof (str_of_int_chars n) as Hall. rewrite H in Hall.
    apply Forall_cons in Hall as [[[H1 H2]|H1] _].
    - vm_compute in H2. by apply H2.
    - discriminate H1. }
  destruct y1 as [a|], y2 as [b|]; simpl; intros H.
  - f_equal. by apply str_of_int_inj.
  - by apply Hnone in H.
  - symmetry in H. by apply Hnone in H.
  - done.
Qed.

(** X14.  Two video items with the same title and different years, known
    or not, get different names. *)
Theorem video_name_year_distinct (c1 c2 : Item) :
  title c1 = title c2 -> year c1 <> year c2 ->
  video_name unicode_alnum c1 <> video_name unicode_alnum c2.
Proof.
  intros Ht Hy Hname. apply Hy. unfold video_name in Hname.
  rewrite Ht in Hname. do 2 apply app_inv_head in Hname.
  apply app_inv_tail in Hname. by apply str_of_year_inj.
Qed.

End NameFacts.

(** ** The run of [main] *)

Section RunFacts.
Import PyStr PathLib OS PlexAPI PlexPosterDownload.

Context (environ : gmap str str) (cwd : Path).
Context (config_libraries : list str) (PlexServer : str -> str -> res Server).
Context (http : str -> option (list N)) (unicode_alnum : N -> bool).

Lemma thumb_url_of_world imgs w : (thumb_url_of environ imgs w).2 = w.
Proof.
  unfold thumb_url_of, environ_getitem, mbind, M_bind, lift.
  destruct (dict_getitem environ _); [|done..].
  destruct (getitem imgs 0); [|done..].
  by destruct (dict_getitem environ _).
Qed.

Lemma download_images_extends fuel save_path library (name url : str) w :
  fs w ⊆ fs (download_images cwd http fuel save_path library name url w).2.
Proof.
  destruct (create_save_path_general cwd fuel save_path library name w)
    as [Hw Hok].
  destruct (makedirs_spec (save_dir cwd save_path library) w)
    as (_ & Hadd%only_adds_dirs_subseteq & _ & _).
  unfold download_images, mbind, M_bind.
  destruct (create_save_path cwd fuel save_path library name w)
    as [[path|e|] w1]; simpl in *; subst w1; [|done..].
  destruct (Hok path eq_refl) as [_ Hnone].
  unfold urlretrieve. destruct (http url) as [data|]; [|done].
  rewrite Hnone.
  destruct (lookup_node _ (parent path)) as [[|d]|]; simpl; [|done..].
  etrans; [exact Hadd|]. apply insert_subseteq. by apply lookup_node_None.
Qed.

Lemma for_albums_extends fuel save_path library l sdp w :
  fs w ⊆ fs (for_albums environ cwd http unicode_alnum fuel save_path library
               l sdp w).2.
Proof.
  revert sdp w. induction l as [|a l IH]; intros sdp w; [done|].
  cbn [for_albums]. unfold mbind, M_bind.
  assert (fs w ⊆ fs (album_step environ cwd http unicode_alnum fuel save_path
                       library a sdp w).2) as Hstep.
  { unfold album_step. destruct (album_thumb a); [|done].
    unfold mbind, M_bind.
    pose proof (thumb_url_of_world (album_images a) w) as Hw.
    destruct (thumb_url_of environ (album_images a) w) as [[u|e|] w0];
      simpl in Hw; subst w0; [|done..].
    pose proof (download_images_extends fuel save_path library
                  (album_name unicode_alnum a) u w) as Hd.
    by destruct (download_images _ _ _ _ _ _ _ _) as [[d|e|] w1]. }
  destruct (album_step _ _ _ _ _ _ _ _ _ _) as [[d|e|] w1]; simpl in *;
    [|done..].
  etrans; [exact Hstep|apply IH].
Qed.

Lemma child_step_extends fuel save_path library lib_type child sdp w :
  fs w ⊆ fs (child_step environ cwd http unicode_alnum fuel save_path library
               lib_type child sdp w).2.
Proof.
  unfold child_step. destruct (bool_decide _); [apply for_albums_extends|].
  destruct (thumb child); [|done]. unfold mbind, M_bind.
  pose proof (thumb_url_of_world (images child) w) as Hw.
  destruct (thumb_url_of environ (images child) w) as [[u|e|] w0];
    simpl in Hw; subst w0; [|done..].
  pose proof (download_images_extends fuel save_path library
                (video_name unicode_alnum child) u w) as Hd.
  by destruct (download_images _ _ _ _ _ _ _ _) as [[d|e|] w1].
Qed.

Lemma for_children_extends fuel save_path library lib_type l sdp w :
  fs w ⊆ fs (for_children environ cwd http unicode_alnum fuel save_path
               library lib_type l sdp w).2.
Proof.
  revert sdp w. induction l as [|c l IH]; intros sdp w; [done|].
  cbn [for_children]. unfold mbind, M_bind.
  pose proof (child_step_extends fuel save_path library lib_type c sdp w)
    as Hstep.
  destruct (child_step _ _ _ _ _ _ _ _ _ _ _) as [[d|e|] w1]; simpl in *;
    [|done..].
  etrans; [exact Hstep|apply IH].
Qed.

Lemma for_libraries_extends fuel save_path l sdp w :
  fs w ⊆ fs (for_libraries environ cwd http unicode_alnum fuel save_path
               l sdp w).2.
Proof.
  revert sdp w. induction l as [|library l IH]; intros sdp w; [done|].
  cbn [for_libraries]. unfold mbind, M_bind.
  assert (fs w ⊆ fs (library_step environ cwd http unicode_alnum fuel
                       save_path library sdp w).2) as Hstep.
  { unfold library_step. destruct (bool_decide _); [done|].
    destruct (bool_decide _); [apply for_children_extends|].
    destruct (bool_decide _); [apply for_children_extends|done]. }
  destruct (library_step _ _ _ _ _ _ _ _ _) as [[d|e|] w1]; simpl in *;
    [|done..].
  etrans; [exact Hstep|apply IH].
Qed.

(** X15.  Whatever the environment, the server, the network and the
    outcome, a run of [main] only adds to the file system: every
    directory and every file that was there is there afterwards, a file
    with the content it had.  No poster is written over an existing
    file. *)
Theorem main_only_adds fuel save_path w :
  fs w ⊆ fs (main environ cwd config_libraries PlexServer http unicode_alnum
               fuel save_path w).2.
Proof.
  unfold main, mbind, M_bind, print, lift. cbn [fst snd].
  destruct (PlexConnection.connect _ _ _) as [plex|e|]; [|done..].
  destruct (PlexConnection.get_libraries plex) as [libs|e|]; [|done..].
  match goal with
  | |- context [for_libraries _ _ _ _ ?f ?sp ?l ?d ?w1] =>
      pose proof (for_libraries_extends f sp l d w1) as H;
      destruct (for_libraries environ cwd http unicode_alnum f sp l d w1)
        as [[d'|e|] w2]
  end; exact H.
Qed.

(** X16.  The libraries are all looked up before the first download:
    when the connection is made and the server lacks a library of the
    configuration, [main] exits naming the first missing library, and
    the file system is as it was, also when libraries listed before
    the missing one have posters. *)
Theorem main_library_missing fuel save_path w plex before x after :
  PlexConnection.connect environ config_libraries PlexServer = Ok plex ->
  PlexConnection.libraries plex = before ++ x :: after ->
  (forall l, l ∈ before -> is_Some (PlexConnection.plex plex !! l)) ->
  PlexConnection.plex plex !! x = None ->
  (main environ cwd config_libraries PlexServer http unicode_alnum
     fuel save_path w).1 = Raise (SystemExit (LibraryNotFound x))
  /\ fs (main environ cwd config_libraries PlexServer http unicode_alnum
           fuel save_path w).2 = fs w.
Proof.
  intros Hc Hl Hall Hx. unfold main, mbind, M_bind, print, lift.
  rewrite Hc. unfold PlexConnection.get_libraries. rewrite Hl.
  by rewrite get_libraries_from_missing.
Qed.

End RunFacts.

Section StepFacts.
Import PyStr PathLib OS PlexAPI PlexPosterDownload.

Context (environ : gmap str str) (cwd : Path).
Context (http : str -> option (list N)) (unicode_alnum : N -> bool).

(** One turn of the loop on a video item whose name is free. *)
Lemma child_step_video fuel save_path library child sdp w
    (pub token : str) img imgs data :
  thumb child <> None ->
  environ !! PUBLIC_IP = Some pub ->
  environ !! py "PLEX_TOKEN" = Some token ->
  images child = img :: imgs ->
  http (pub ++ url img ++ py "?X-Plex-Token=" ++ token) = Some data ->
  (forall q d, q `prefix_of` save_dir cwd save_path library ->
               lookup_node (fs w) q <> Some (File d)) ->
  (size (fs w) < fuel)%nat ->
  fs w !! base_path (save_dir cwd save_path library)
            (video_name unicode_alnum child) = None ->
  child_step environ cwd http unicode_alnum fuel save_path library
    (py "video") child sdp w
  = (Ok (Some (save_dir cwd save_path library)),
     set_fs (<[base_path (save_dir cwd save_path library)
                 (video_name unicode_alnum child) := File data]>
               (fs (makedirs (save_dir cwd save_path library) w).2))
            (makedirs (save_dir cwd save_path library) w).2).
Proof.
  intros Hthumb Hpub Htok Himg Hhttp Hfree Hfuel Hnew.
  destruct (download_step cwd http fuel save_path library
              (video_name unicode_alnum child)
              (pub ++ url img ++ py "?X-Plex-Token=" ++ token) data w)
    as (path & Hrun & _ & _ & _ & Hbase);
    [by unfold video_name; destruct (re_sub_nonword _ _)
    |apply video_name_no_slash|done|done|exact Hhttp|].
  rewrite (Hbase Hnew) in Hrun.
  unfold child_step. rewrite bool_decide_eq_false_2 by discriminate.
  destruct (thumb child) as [t|]; [|done].
  unfold mbind, M_bind. rewrite Himg.
  rewrite (thumb_url_of_environ environ pub token) by done.
  by rewrite Hrun.
Qed.

(** X17.  Two video items in a row with the same title and different
    years, each with a poster, in a library directory where neither
    name is taken: given fuel for the loops, both posters are saved, each
    under its own name with its year and without a numeric suffix. *)
Theorem for_children_same_title save_path library (c1 c2 : Item) sdp w
    (pub token : str) img1 imgs1 img2 imgs2 d1 d2 :
  title c1 = title c2 -> year c1 <> year c2 ->
  thumb c1 <> None -> thumb c2 <> None ->
  environ !! PUBLIC_IP = Some pub ->
  environ !! py "PLEX_TOKEN" = Some token ->
  images c1 = img1 :: imgs1 -> images c2 = img2 :: imgs2 ->
  http (pub ++ url img1 ++ py "?X-Plex-Token=" ++ token) = Some d1 ->
  http (pub ++ url img2 ++ py "?X-Plex-Token=" ++ token) = Some d2 ->
  (forall q d, q `prefix_of` save_dir cwd save_path library ->
               lookup_node (fs w) q <> Some (File d)) ->
  fs w !! base_path (save_dir cwd save_path library)
            (video_name unicode_alnum c1) = None ->
  fs w !! base_path (save_dir cwd save_path library)
            (video_name unicode_alnum c2) = None ->
  exists fuel0, forall fuel, (fuel0 <= fuel)%nat ->
    exists w2,
      for_children environ cwd http unicode_alnum fuel save_path library
        (py "video") [c1; c2] sdp w
      = (Ok (Some (save_dir cwd save_path library)), w2)
      /\ files (fs w2)
         = <[base_path (save_dir cwd save_path library)
               (video_name unicode_alnum c2) := d2]>
             (<[base_path (save_dir cwd save_path library)
                  (video_name unicode_alnum c1) := d1]> (files (fs w))).
Proof.
  intros Ht Hy Ht1 Ht2 Hpub Htok Hi1 Hi2 Hh1 Hh2 Hfree Hn1 Hn2.
  set (dir := save_dir cwd save_path library) in *.
  destruct (makedirs_spec dir w) as (_ & Hadd & _ & _).
  set (wm := (makedirs dir w).2) in *.
  exists (size (fs wm) + 2)%nat. intros fuel Hfuel.
  pose proof (map_subseteq_size _ _ (only_adds_dirs_subseteq _ _ _ Hadd))
    as Hsize.
  assert (base_path dir (video_name unicode_alnum c1)
          <> base_path dir (video_name unicode_alnum c2)) as Hne.
  { unfold base_path. intros H%app_inv_head. injection H as H.
    apply app_inv_tail in H. apply Hy. unfold video_name in H.
    rewrite Ht in H. do 2 apply app_inv_head in H.
    apply app_inv_tail in H. by apply str_of_year_inj. }
  cbn [for_children]. unfold mbind, M_bind.
  rewrite (child_step_video fuel save_path library c1 sdp w pub token
             img1 imgs1 d1) by (done || lia).
  fold dir. fold wm.
  set (w1 := set_fs (<[base_path dir (video_name unicode_alnum c1)
                       := File d1]> (fs wm)) wm).
  assert (fs wm !! base_path dir (video_name unicode_alnum c1) = None) as Hm1.
  { rewrite (only_adds_dirs_other _ _ _ _ Hadd); [done|].
    apply base_path_not_prefix. }
  assert (fs wm !! base_path dir (video_name unicode_alnum c2) = None) as Hm2.
  { rewrite (only_adds_dirs_other _ _ _ _ Hadd); [done|].
    apply base_path_not_prefix. }
  destruct (makedirs_spec dir w1) as (_ & Hadd2 & _ & _).
  rewrite (child_step_video fuel save_path library c2 _ w1 pub token
             img2 imgs2 d2); [|done..| | |].
  - eexists. split; [done|]. simpl. rewrite files_insert_file.
    fold dir. rewrite (only_adds_dirs_files _ _ _ Hadd2). unfold w1. simpl.
    rewrite files_insert_file. by rewrite (only_adds_dirs_files _ _ _ Hadd).
  - intros q d Hq Hfile.
    assert (q <> base_path dir (video_name unicode_alnum c1)) as Hqp.
    { intros ->. by apply (base_path_not_prefix dir) in Hq. }
    rewrite (lookup_node_ext (fs wm) (fs w1) q) in Hfile
      by (by apply lookup_insert_ne).
    destruct (only_adds_dirs_node _ _ _ q Hadd) as [E|(_ & _ & E)];
      rewrite E in Hfile; [by eapply Hfree|done].
  - unfold w1. simpl. rewrite map_size_insert_None by done. lia.
  - unfold w1. simpl. by rewrite lookup_insert_ne.
Qed.

(** X18.  An album with a thumb, of an artist, is saved under its
    sanitized title, with no year: when that name is not empty and not
    taken, one turn of the loop over the albums writes
    [dir/<sanitized title>.png]. *)
Theorem album_poster_file_name fuel save_path library album sdp w
    (pub token : str) img imgs data :
  album_thumb album <> None ->
  album_name unicode_alnum album <> [] ->
  environ !! PUBLIC_IP = Some pub ->
  environ !! py "PLEX_TOKEN" = Some token ->
  album_images album = img :: imgs ->
  http (pub ++ url img ++ py "?X-Plex-Token=" ++ token) = Some data ->
  (forall q d, q `prefix_of` save_dir cwd save_path library ->
               lookup_node (fs w) q <> Some (File d)) ->
  (size (fs w) < fuel)%nat ->
  fs w !! base_path (save_dir cwd save_path library)
            (re_sub_nonword unicode_alnum (album_title album)) = None ->
  exists w',
    album_step environ cwd http unicode_alnum fuel save_path library album
      sdp w
    = (Ok (Some (save_dir cwd save_path library)), w')
    /\ files (fs w')
       = <[base_path (save_dir cwd save_path library)
             (re_sub_nonword unicode_alnum (album_title album)) := data]>
           (files (fs w)).
Proof.
  intros Hthumb Hne Hpub Htok Himg Hhttp Hfree Hfuel Hnew.
  destruct (download_step cwd http fuel save_path library
              (album_name unicode_alnum album)
              (pub ++ url img ++ py "?X-Plex-Token=" ++ token) data w)
    as (path & Hrun & _ & _ & _ & Hbase);
    [done|apply re_sub_nonword_no_slash|done|done|exact Hhttp|].
  rewrite (Hbase Hnew) in Hrun.
  destruct (makedirs_spec (save_dir cwd save_path library) w)
    as (_ & Hadd & _ & _).
  eexists. split.
  - unfold album_step. destruct (album_thumb album) as [t|]; [|done].
    unfold mbind, M_bind. rewrite Himg.
    rewrite (thumb_url_of_environ environ pub token) by done.
    by rewrite Hrun.
  - simpl. rewrite files_insert_file.
    by rewrite (only_adds_dirs_files _ _ _ Hadd).
Qed.

(** X19.  The URL is made before the save path: for an item that has a
    thumb and an empty list of images, the turn of the loop raises
    [IndexError] and leaves the world as it was, without the library
    directory being made. *)
Theorem child_step_no_image fuel save_path library child sdp w (pub : str) :
  thumb child <> None ->
  images child = [] ->
  environ !! PUBLIC_IP = Some pub ->
  child_step environ cwd http unicode_alnum fuel save_path library
    (py "video") child sdp w = (Raise IndexError, w).
Proof.
  intros Hthumb Himg Hpub. unfold child_step.
  rewrite bool_decide_eq_false_2 by discriminate.
  destruct (thumb child) as [t|]; [|done].
  unfold mbind, M_bind, thumb_url_of, environ_getitem, lift, dict_getitem.
  fold PUBLIC_IP. by rewrite Hpub, Himg.
Qed.

End StepFacts.

(** ** [get_item_guid]: the token of the first source *)

Section GuidTokens.
Import PyStr PathLib OS PlexAPI PlexConnection.

(** X20.  When no source before [source] in the priority list of the
    kind has its name in the title, and the last token [{source-id}] of
    the title has no closing brace in [id], [get_item_guid] returns [id],
    and [source://id] in the full form. *)
Theorem get_item_guid_braced_token title kind skipped source rest
    (pre id post : str) :
  lib_sources !! kind = Some (skipped ++ source :: rest) ->
  Forall (fun s => ~ occurs s title) skipped ->
  source ∈ [py "tmdb"; py "imdb"; py "tvdb"] ->
  title = pre ++ (py "{" ++ source ++ py "-") ++ id ++ py "}" ++ post ->
  N_of_ascii "}" ∉ id ->
  ~ occurs (py "{" ++ source ++ py "-") (id ++ py "}" ++ post) ->
  get_item_guid title kind false = Ok id
  /\ get_item_guid title kind true = Ok (source ++ py "://" ++ id).
Proof.
  intros Hk Hsk Hsrc Ht Hclose Hlast. split.
  - by apply (get_item_guid_braced title kind skipped source rest pre id post
                false).
  - by apply (get_item_guid_braced title kind skipped source rest pre id post
                true).
Qed.

(** X21.  When no source before "plex" in the priority list of the kind
    has its name in the title, and the last "plex://" of the title is
    followed by a word that ends at white space or at the end of the
    title, [get_item_guid] returns that word, and "plex://" with the word
    in the full form. *)
Theorem get_item_guid_plex_token title kind skipped rest (pre w post : str) :
  lib_sources !! kind = Some (skipped ++ py "plex" :: rest) ->
  Forall (fun s => ~ occurs s title) skipped ->
  title = pre ++ py "plex://" ++ w ++ post ->
  w <> [] ->
  Forall (fun c => isspace c = false) w ->
  (post = [] \/ exists d post', post = d :: post' /\ isspace d = true) ->
  ~ occurs (py "plex://") (w ++ post) ->
  get_item_guid title kind false = Ok w
  /\ get_item_guid title kind true = Ok (py "plex://" ++ w).
Proof.
  intros Hk Hsk Ht Hw Hns Hpost Hlast. split.
  - by apply (get_item_guid_plex title kind skipped rest pre w post false).
  - by apply (get_item_guid_plex title kind skipped rest pre w post true).
Qed.

Lemma get_item_guid_braced_token_witness :
  get_item_guid (py "Heat (1995) " ++ py "{imdb-" ++ py "tt0113277" ++ py "}")
    (py "movie") false = Ok (py "tt0113277")
  /\ get_item_guid (py "Heat (1995) " ++ py "{imdb-" ++ py "tt0113277" ++ py "}")
       (py "movie") true = Ok (py "imdb" ++ py "://" ++ py "tt0113277").
Proof.
  apply (get_item_guid_braced_token _ (py "movie") [py "tmdb"] (py "imdb")
           [py "plex"] (py "Heat (1995) ") (py "tt0113277") []).
  - reflexivity.
  - repeat constructor; apply find_not_occurs; reflexivity.
  - set_solver.
  - reflexivity.
  - compute_done.
  - apply find_not_occurs; reflexivity.
Defined.

Lemma get_item_guid_plex_token_witness :
  get_item_guid (py "Dark " ++ py "plex://" ++ py "show/5d9c08" ++ py " (2017)")
    (py "show") false = Ok (py "show/5d9c08")
  /\ get_item_guid
       (py "Dark " ++ py "plex://" ++ py "show/5d9c08" ++ py " (2017)")
       (py "show") true = Ok (py "plex://" ++ py "show/5d9c08").
Proof.
  apply (get_item_guid_plex_token _ (py "show") [py "tvdb"; py "tmdb"] []
           (py "Dark ") (py "show/5d9c08") (py " (2017)")).
  - reflexivity.
  - repeat constructor; apply find_not_occurs; reflexivity.
  - reflexivity.
  - discriminate.
  - repeat constructor.
  - right. eexists _, _. split; reflexivity.
  - apply find_not_occurs; reflexivity.
Defined.

End GuidTokens.

(** ** Examples of the further properties *)

Section FurtherExamples.
Import PyStr PathLib OS PlexAPI PlexPosterDownload.

Lemma get_libraries_ok_witness :
  exists r,
    PlexConnection.get_libraries (demo_connection [py "Movies"; py "Movies"])
    = Ok r
    /\ r.*1 = [py "Movies"]
    /\ forall l s, (l, s) ∈ r -> demo_server !! l = Some s.
Proof.
  apply (get_libraries_ok
           (demo_connection [py "Movies"; py "Movies"])).
  intros l Hl. exists (demo_section (Some 2019)).
  apply elem_of_cons in Hl as [->|Hl]; [reflexivity|].
  apply elem_of_cons in Hl as [->|Hl]; [reflexivity|].
  by apply elem_of_nil in Hl.
Defined.

Lemma get_libraries_missing_witness :
  PlexConnection.get_libraries (demo_connection [py "Movies"; py "Music"])
  = Raise (SystemExit (LibraryNotFound (py "Music"))).
Proof.
  apply (get_libraries_missing
           (demo_connection [py "Movies"; py "Music"]) [py "Movies"]
           (py "Music") []).
  - reflexivity.
  - intros l Hl. exists (demo_section (Some 2019)).
    apply elem_of_cons in Hl as [->|Hl]; [reflexivity|].
    by apply elem_of_nil in Hl.
  - reflexivity.
Defined.

Lemma download_images_twice_witness :
  exists fuel0, forall fuel, (fuel0 <= fuel)%nat ->
    exists p1 p2 w1 w2,
      download_images demo_cwd demo_http_echo fuel (Some (py "out"))
        demo_library (py "Foo") (py "a") demo_world_1
      = (Ok (save_dir demo_cwd (Some (py "out")) demo_library), w1)
      /\ download_images demo_cwd demo_http_echo fuel (Some (py "out"))
           demo_library (py "Foo") (py "b") w1
         = (Ok (save_dir demo_cwd (Some (py "out")) demo_library), w2)
      /\ p1 <> p2
      /\ files (fs demo_world_1) !! p1 = None
      /\ files (fs demo_world_1) !! p2 = None
      /\ files (fs w2)
         = <[p2 := py "b"]> (<[p1 := py "a"]> (files (fs demo_world_1))).
Proof.
  apply (download_images_twice demo_cwd demo_http_echo (Some (py "out"))
           demo_library (py "Foo") (py "a") (py "b") (py "a") (py "b")
           demo_world_1).
  - discriminate.
  - compute_done.
  - apply demo_dir_free; intros d; vm_compute; discriminate.
  - reflexivity.
  - reflexivity.
Defined.


Lemma video_name_year_distinct_witness :
  video_name (fun _ => false) (demo_movie (Some 2019))
  <> video_name (fun _ => false) (demo_movie None).
Proof.
  apply (video_name_year_distinct (fun _ => false) (demo_movie (Some 2019))
           (demo_movie None)).
  - reflexivity.
  - discriminate.
Defined.

Lemma main_library_missing_witness :
  (main demo_environ_public demo_cwd [py "Movies"; py "Music"]
     demo_PlexServer demo_http (fun _ => false) 5 None demo_world_0).1
  = Raise (SystemExit (LibraryNotFound (py "Music")))
  /\ fs (main demo_environ_public demo_cwd [py "Movies"; py "Music"]
           demo_PlexServer demo_http (fun _ => false) 5 None demo_world_0).2
     = fs demo_world_0.
Proof.
  apply (main_library_missing demo_environ_public demo_cwd
           [py "Movies"; py "Music"] demo_PlexServer demo_http
           (fun _ => false) 5 None demo_world_0
           (demo_connection [py "Movies"; py "Music"]) [py "Movies"]
           (py "Music") []).
  - reflexivity.
  - reflexivity.
  - intros l Hl. exists (demo_section (Some 2019)).
    apply elem_of_cons in Hl as [->|Hl]; [reflexivity|].
    by apply elem_of_nil in Hl.
  - reflexivity.
Defined.

Lemma for_children_same_title_witness :
  exists fuel0, forall fuel, (fuel0 <= fuel)%nat ->
    exists w2,
      for_children demo_environ_public demo_cwd demo_http_echo
        (fun _ => false) fuel (Some (py "out")) demo_library (py "video")
        [demo_movie (Some 2002); demo_movie (Some 2019)] None demo_world_0
      = (Ok (Some (save_dir demo_cwd (Some (py "out")) demo_library)), w2)
      /\ files (fs w2)
         = <[base_path (save_dir demo_cwd (Some (py "out")) demo_library)
               (video_name (fun _ => false) (demo_movie (Some 2019)))
             := py "https://plex.example.org/library/metadata/7/thumb/1?X-Plex-Token=secret"]>
             (<[base_path (save_dir demo_cwd (Some (py "out")) demo_library)
                  (video_name (fun _ => false) (demo_movie (Some 2002)))
                := py "https://plex.example.org/library/metadata/7/thumb/1?X-Plex-Token=secret"]>
                (files (fs demo_world_0))).
Proof.
  apply (for_children_same_title demo_environ_public demo_cwd demo_http_echo
           (fun _ => false) (Some (py "out")) demo_library
           (demo_movie (Some 2002)) (demo_movie (Some 2019)) None demo_world_0
           (py "https://plex.example.org") (py "secret")
           {| url := py "/library/metadata/7/thumb/1" |} []
           {| url := py "/library/metadata/7/thumb/1" |} []).
  - reflexivity.
  - discriminate.
  - discriminate.
  - discriminate.
  - reflexivity.
  - reflexivity.
  - reflexivity.
  - reflexivity.
  - reflexivity.
  - reflexivity.
  - apply demo_dir_free; intros d; vm_compute; discriminate.
  - reflexivity.
  - reflexivity.
Defined.

Lemma album_poster_file_name_witness :
  exists w',
    album_step demo_environ_public demo_cwd demo_http (fun _ => false) 1
      (Some (py "out")) demo_library demo_album None demo_world_0
    = (Ok (Some (save_dir demo_cwd (Some (py "out")) demo_library)), w')
    /\ files (fs w')
       = <[base_path (save_dir demo_cwd (Some (py "out")) demo_library)
             (re_sub_nonword (fun _ => false) (album_title demo_album))
           := py "PNG"]> (files (fs demo_world_0)).
Proof.
  apply (album_poster_file_name demo_environ_public demo_cwd demo_http
           (fun _ => false) 1 (Some (py "out")) demo_library demo_album None
           demo_world_0 (py "https://plex.example.org") (py "secret")
           {| url := py "/library/metadata/9/thumb/2" |} [] (py "PNG")).
  - discriminate.
  - vm_compute. discriminate.
  - reflexivity.
  - reflexivity.
  - reflexivity.
  - reflexivity.
  - apply demo_dir_free; intros d; vm_compute; discriminate.
  - vm_compute. lia.
  - reflexivity.
Defined.

Lemma child_step_no_image_witness :
  child_step demo_environ_public demo_cwd demo_http (fun _ => false) 1
    (Some (py "out")) demo_library (py "video") demo_movie_no_image None
    demo_world_0 = (Raise IndexError, demo_world_0).
Proof.
  apply (child_step_no_image demo_environ_public demo_cwd demo_http
           (fun _ => false) 1 (Some (py "out")) demo_library
           demo_movie_no_image None demo_world_0
           (py "https://plex.example.org")).
  - discriminate.
  - reflexivity.
  - reflexivity.
Defined.

End FurtherExamples.
